(** * twamp-measurements: the gzip/CSV to Elasticsearch ingestion pipeline

    A shallow embedding of [main.go]: the watch loop of [main], the per-file
    handler [processGzipFile] and the bulk indexer
    [bulkInsertToElasticsearch], with the properties of the specification
    stated over them.

    Go strings and byte slices are both sequences of bytes, and are both
    modelled by [string].  A function that logs, exits the process or
    panics is a computation in the monad [M]: a trace of observable events
    together with the way the call ended. *)

From stdpp Require Import base option list gmap strings fin_maps.
From Stdlib Require Import ZArith Lia Ascii.

Local Open Scope string_scope.
Local Open Scope list_scope.
Local Open Scope Z_scope.

(** ** Values, errors and records *)

(** Go's [interface{}] as far as this program stores it in a record: the
    cells of a CSV row are strings; any other dynamic value is kept by name
    of its kind ([json.Marshal] rejects some of them, such as channels). *)
Inductive any : Type :=
| AString (s : string)
| ANumber (z : Z)
| AOther (kind : string).

(** [map[string]interface{}] *)
Abbreviation Record_ := (gmap string any).

(** Go's [error] values and the operands handed to the printing functions. *)
Inductive error : Type :=
| errors_New (text : string)
| io_EOF
| csv_ErrFieldCount
| fmt_Errorf (format : string) (a : arg)
with arg : Type :=
| AStr (s : string)
| AInt (n : Z)
| AStrs (l : list string)
| AMap (m : gmap string any)
| AErr (e : error).

(** A run-time panic of the Go runtime. *)
Inductive panic : Type :=
| IndexOutOfRange (index : nat) (len : nat)
| NilPointerDereference.

(** ** The datastore client (collaborator) *)

Record BulkRequest : Type := {
  Body : string;
  Refresh : string
}.

Record Response : Type := {
  StatusCode : Z;
  ResBody : string
}.

(** [esapi.Response.IsError]: [r.StatusCode > 299]. *)
Definition IsError (res : Response) : bool := 299 <? StatusCode res.

(** A constructed client, seen through the one call the program makes on
    it: performing a bulk request gives a transport error or a response.
    A [*elasticsearch.Client] may be nil: [option Client]. *)
Record Client : Type := {
  Perform : BulkRequest -> error + Response
}.

(** ** Observable events, results and the monad *)

Inductive event : Type :=
| fmt_Println (args : list arg)
| log_Println (args : list arg)
| log_Printf (format : string) (args : list arg)
| log_Fatal_out (args : list arg)
| os_Open_call (path : string)
| Bulk_Do (req : BulkRequest).

Inductive result (A : Type) : Type :=
| Return (a : A)
| os_Exit (code : Z)
| Panicked (p : panic).
Arguments Return {A} a.
Arguments os_Exit {A} code.
Arguments Panicked {A} p.

Definition M (A : Type) : Type := (list event * result A)%type.

Definition ret {A} (a : A) : M A := ([], Return a).

Definition bind {A B} (m : M A) (k : A -> M B) : M B :=
  match m with
  | (t, Return a) => let '(t', r) := k a in (t ++ t', r)
  | (t, os_Exit c) => (t, os_Exit c)
  | (t, Panicked p) => (t, Panicked p)
  end.

Notation "x <- m ;; k" := (bind m (fun x => k))
  (at level 100, m at next level, right associativity).
Notation "m ;;; k" := (bind m (fun _ => k))
  (at level 100, right associativity).

Definition emit (e : event) : M unit := ([e], Return tt).

(** [log.Fatal]: print, then [os.Exit(1)]. *)
Definition log_Fatal {A} (args : list arg) : M A :=
  ([log_Fatal_out args], os_Exit 1).

Definition throw {A} (p : panic) : M A := ([], Panicked p).

Definition trace {A} (m : M A) : list event := fst m.
Definition outcome {A} (m : M A) : result A := snd m.

(** The bulk requests a trace contains, in order. *)
Fixpoint requests (t : list event) : list BulkRequest :=
  match t with
  | [] => []
  | Bulk_Do req :: t' => req :: requests t'
  | _ :: t' => requests t'
  end.

(** ** Strings *)

Definition nl : string := String (Ascii.ascii_of_nat 10) EmptyString.
Definition dq : string := String (Ascii.ascii_of_nat 34) EmptyString.

(** [s[n:]] for [n <= len(s)]. *)
Fixpoint slice_from (n : nat) (s : string) : string :=
  match n, s with
  | O, _ => s
  | S n', String _ s' => slice_from n' s'
  | S _, EmptyString => EmptyString
  end.

(** [strings.HasSuffix]:
    [len(s) >= len(suffix) && s[len(s)-len(suffix):] == suffix]. *)
Definition HasSuffix (s suffix : string) : bool :=
  (String.length suffix <=? String.length s)%nat
  && String.eqb (slice_from (String.length s - String.length suffix) s) suffix.

(** [fmt.Sprintf] for formats whose only verb is [%s], with string
    operands. *)
Fixpoint Sprintf (format : string) (args : list string) : string :=
  match format with
  | EmptyString => EmptyString
  | String c rest =>
      match Ascii.eqb c "%"%char, rest with
      | true, String v rest' =>
          if Ascii.eqb v "s"%char then
            match args with
            | a :: args' => a +:+ Sprintf rest' args'
            | [] => "%!s(MISSING)" +:+ Sprintf rest' []
            end
          else String c (String v (Sprintf rest' args))
      | _, _ => String c (Sprintf rest args)
      end
  end.

(** ** The CSV reader ([encoding/csv], collaborator)

    The reader is modelled from the point where the decompressed text has
    been cut into records: [Lexed] is what the lexer makes of one record,
    the fields it found and, if there was one, the message of its parse
    error or of the read error of the underlying stream (the lexer never
    reports the end of input together with a record).  The field-count
    rule of [readRecord] is modelled as the library has it: with
    [FieldsPerRecord] zero the first record read sets it, and every later
    record must have that many fields. *)

Definition Lexed : Type := (list string * option string)%type.

Record Reader : Type := {
  pending : list Lexed;
  FieldsPerRecord : Z
}.

Definition csv_NewReader (text : list Lexed) : Reader :=
  {| pending := text; FieldsPerRecord := 0 |}.

Definition len {A} (l : list A) : Z := Z.of_nat (length l).

Definition is_nil (err : option error) : bool :=
  match err with None => true | Some _ => false end.

Definition readRecord (r : Reader) : Reader * (list string * option error) :=
  match pending r with
  | [] => (r, ([], Some io_EOF))
  | (dst, lexerr) :: rest =>
      let err := errors_New <$> lexerr in
      if 0 <? FieldsPerRecord r then
        let err' :=
          if negb (len dst =? FieldsPerRecord r) && is_nil err
          then Some csv_ErrFieldCount else err in
        ({| pending := rest; FieldsPerRecord := FieldsPerRecord r |},
         (dst, err'))
      else if FieldsPerRecord r =? 0 then
        ({| pending := rest; FieldsPerRecord := len dst |}, (dst, err))
      else
        ({| pending := rest; FieldsPerRecord := FieldsPerRecord r |},
         (dst, err))
  end.

Definition Read (r : Reader) : Reader * (list string * option error) :=
  readRecord r.

(** [ReadAll]: records up to end of input; on any other error the result
    is [nil] and that error.  The recursion is on the number of pending
    records, which [readRecord] decreases whenever it is not at the end. *)
Fixpoint ReadAll_from (fuel : nat) (r : Reader) (records : list (list string))
  : Reader * (list (list string) * option error) :=
  match fuel with
  | O => (r, (records, None))
  | S fuel' =>
      let '(r', (record, err)) := readRecord r in
      match err with
      | Some io_EOF => (r', (records, None))
      | Some e => (r', ([], Some e))
      | None => ReadAll_from fuel' r' (records ++ [record])
      end
  end.

Definition ReadAll (r : Reader) : Reader * (list (list string) * option error) :=
  ReadAll_from (S (length (pending r))) r [].

(** ** Files and the gzip reader (collaborators)

    What the decoding libraries make of an opened file: the verdict of
    [gzip.NewReader] on its header, and the records the CSV lexer finds in
    the decompressed text (a read error in the middle of the compressed
    stream shows up as the error of the record being read). *)
Record File : Type := {
  gzip_header : option error;
  csv_text : list Lexed
}.

Definition gzip_NewReader (f : File) : error + list Lexed :=
  match gzip_header f with
  | Some err => inl err
  | None => inr (csv_text f)
  end.

(** ** The file-system watcher (collaborator) *)

(** [fsnotify.Op] is a bit mask: [Create Op = 1 << iota], then [Write],
    [Remove], [Rename], [Chmod]. *)
Definition Create : Z := Z.shiftl 1 0.
Definition Write : Z := Z.shiftl 1 1.
Definition Remove : Z := Z.shiftl 1 2.
Definition Rename : Z := Z.shiftl 1 3.
Definition Chmod : Z := Z.shiftl 1 4.

Record Event : Type := {
  Name : string;
  Op : Z
}.

(** What one round of the [select] in the watch loop receives. *)
Inductive msg : Type :=
| Events_recv (event : Event)
| Events_closed
| Errors_recv (err : error)
| Errors_closed.

(** [elasticsearch.Config] as [main] fills it. *)
Record Config : Type := {
  Addresses : list string;
  Username : string;
  Password : string;
  InsecureSkipVerify : bool
}.

(** What [main] finds when it starts. *)
Record Platform : Type := {
  godotenv_Load : string -> option error;
  os_Getenv : string -> string;
  elasticsearch_NewClient : Config -> error + Client;
  fsnotify_NewWatcher : option error;
  watcher_Add : string -> option error
}.

(** ** The program *)

Section Program.

(** [json.Marshal] on a record, [json.NewDecoder(body).Decode] into a
    [map[string]interface{}], and [os.Open]. *)
Variable json_Marshal : gmap string any -> error + string.
Variable json_Decode : string -> error + gmap string any.
Variable os_Open : string -> error + File.

(** [fmt.Sprintf(`{ "create" : { "_index" : "%s" } }%s`, "twamp-data", "\n")] *)
Definition meta_format : string :=
  "{ " +:+ dq +:+ "create" +:+ dq +:+ " : { " +:+ dq +:+ "_index" +:+ dq
  +:+ " : " +:+ dq +:+ "%s" +:+ dq +:+ " } }%s".

Definition meta : string := Sprintf meta_format ["twamp-data"; nl].

(** The loop of [bulkInsertToElasticsearch] over [dataList]: the buffer
    once every record is written, or the error the function returns. *)
Fixpoint rangeDataList (dataList : list (gmap string any)) (buf : string)
  : M (error + string) :=
  match dataList with
  | [] => ret (inr buf)
  | dataMap :: rest =>
      emit (log_Println [AStr "dataMap: "; AMap dataMap]) ;;;
      match json_Marshal dataMap with
      | inl err =>
          ret (inl (fmt_Errorf "error marshalling dataMap: %w" (AErr err)))
      | inr data =>
          let data := data +:+ nl in
          rangeDataList rest (buf +:+ meta +:+ data)
      end
  end.

(** [req.Do(context.Background(), es)]: a nil client is dereferenced. *)
Definition BulkRequest_Do (req : BulkRequest) (es : option Client)
  : M (error + Response) :=
  match es with
  | None => throw NilPointerDereference
  | Some c => emit (Bulk_Do req) ;;; ret (Perform c req)
  end.

(** The returned [error]; [None] is [nil]. *)
Definition bulkInsertToElasticsearch
    (dataList : list (gmap string any)) (es : option Client)
  : M (option error) :=
  filled <- rangeDataList dataList "" ;;
  match filled with
  | inl err => ret (Some err)
  | inr buf =>
      let req := {| Body := buf; Refresh := "true" |} in
      done <- BulkRequest_Do req es ;;
      match done with
      | inl err =>
          ret (Some (fmt_Errorf "failure indexing batch: %w" (AErr err)))
      | inr res =>
          if IsError res then
            match json_Decode (ResBody res) with
            | inl err =>
                ret (Some (fmt_Errorf "error parsing the response body: %w"
                                      (AErr err)))
            | inr resBody =>
                ret (Some (fmt_Errorf "error indexing batch: %s"
                                      (AMap resBody)))
            end
          else
            emit (log_Printf "Successfully batch of %d messages"
                             [AInt (len dataList)]) ;;;
            ret None
      end
  end.

(** [for j, header := range headers { dataMap[header] = row[j] }], with
    the bounds check of [row[j]]. *)
Fixpoint rangeHeaders (j : nat) (headers : list string) (row : list string)
    (dataMap : gmap string any) : M (gmap string any) :=
  match headers with
  | [] => ret dataMap
  | header :: headers' =>
      match row !! j with
      | Some cell =>
          rangeHeaders (S j) headers' row (<[header := AString cell]> dataMap)
      | None => throw (IndexOutOfRange j (length row))
      end
  end.

(** [for _, row := range rows { ...; dataList = append(dataList, dataMap) }] *)
Fixpoint rangeRows (headers : list string) (rows : list (list string))
    (dataList : list (gmap string any)) : M (list (gmap string any)) :=
  match rows with
  | [] => ret dataList
  | row :: rows' =>
      dataMap <- rangeHeaders 0 headers row ∅ ;;
      rangeRows headers rows' (dataList ++ [dataMap])
  end.

Definition processGzipFile (es : option Client) (filePath : string) : M unit :=
  emit (os_Open_call filePath) ;;;
  match os_Open filePath with
  | inl err => log_Fatal [AErr err]
  | inr f =>
      match gzip_NewReader f with
      | inl err => log_Fatal [AErr err]
      | inr gz =>
          let reader := csv_NewReader gz in
          let '(reader, (headers, err)) := Read reader in
          emit (log_Println [AStr "header: "; AStrs headers]) ;;;
          match err with
          | Some e => log_Fatal [AErr e]
          | None =>
              let '(_, (rows, _)) := ReadAll reader in
              dataList <- rangeRows headers rows [] ;;
              emit (log_Println [AStr "length: "; AInt (len dataList)]) ;;;
              _ <- bulkInsertToElasticsearch dataList es ;;
              ret tt
          end
      end
  end.

(** One round of the [select] on an event: the [if] of the watch loop. *)
Definition onEvent (es : option Client) (event : Event) : M unit :=
  if (Z.land (Op event) Create =? Create) && HasSuffix (Name event) ".gz"
  then
    emit (fmt_Println [AStr "New .gz file detected:"; AStr (Name event)]) ;;;
    processGzipFile es (Name event)
  else ret tt.

(** The goroutine of [main], over the messages its two channels deliver. *)
Fixpoint watchLoop (es : option Client) (msgs : list msg) : M unit :=
  match msgs with
  | [] => ret tt
  | Events_recv event :: msgs' => onEvent es event ;;; watchLoop es msgs'
  | Events_closed :: _ => ret tt
  | Errors_recv err :: msgs' =>
      emit (log_Println [AStr "Error:"; AErr err]) ;;; watchLoop es msgs'
  | Errors_closed :: _ => ret tt
  end.

(** [main] up to the blocking [select {}]: the client and the watcher are
    set up, the directory is registered, and the goroutine then serves the
    messages that arrive. *)
Definition main (p : Platform) (msgs : list msg) : M unit :=
  match godotenv_Load p ".env" with
  | Some _ => log_Fatal [AStr "Error loading .env file"]
  | None =>
      let directoryPath := os_Getenv p "FILE_PATH" in
      let esURL := os_Getenv p "ES_SERVER" in
      let esUser := os_Getenv p "ES_USER" in
      let esPassword := os_Getenv p "ES_PASSWORD" in
      let cfg := {| Addresses := [esURL]; Username := esUser;
                    Password := esPassword; InsecureSkipVerify := true |} in
      es <- match elasticsearch_NewClient p cfg with
            | inl err =>
                emit (log_Printf "Error createing Elasticsearch client: %s"
                                 [AErr err]) ;;;
                ret None
            | inr c => ret (Some c)
            end ;;
      match fsnotify_NewWatcher p with
      | Some err => log_Fatal [AStr "Watcher 생성 에러: "; AErr err]
      | None =>
          match watcher_Add p directoryPath with
          | Some err => log_Fatal [AErr err]
          | None => watchLoop es msgs
          end
      end
  end.

(** ** Reference definitions for the statements *)

(** The record of a row, cell by cell: later columns overwrite earlier
    ones of the same name, as assignments to a Go map do. *)
Definition fill (dataMap : gmap string any) (headers cells : list string)
  : gmap string any :=
  foldl (fun m kv => <[kv.1 := AString kv.2]> m) dataMap (zip headers cells).

Definition zipRecord (headers cells : list string) : gmap string any :=
  fill ∅ headers cells.

(** The two payload lines of one serialized record, and the payload of a
    batch. *)
Definition two_lines (data : string) : string := meta +:+ data +:+ nl.

Fixpoint payload (datas : list string) : string :=
  match datas with
  | [] => ""
  | data :: datas' => two_lines data +:+ payload datas'
  end.

(** A file that opens as gzip and whose text is the header followed by
    [rows], every row with as many cells as the header. *)
Definition well_formed (f : File) (headers : list string)
    (rows : list (list string)) : Prop :=
  gzip_header f = None
  /\ csv_text f = (headers, None) :: ((fun row => (row, None)) <$> rows)
  /\ Forall (fun row => length row = length headers) rows.


Definition ends_with (s suffix : string) : Prop :=
  exists stem, s = stem +:+ suffix.

Definition is_creation (event : Event) : Prop :=
  Z.land (Op event) Create = Create.

(** The events of the prefix of [processGzipFile] up to the call of the
    indexer. *)
Definition decoded_log (filePath : string) (headers : list string) (n : Z)
  : list event :=
  [os_Open_call filePath;
   log_Println [AStr "header: "; AStrs headers];
   log_Println [AStr "length: "; AInt n]].

Definition dataMap_log (dataList : list (gmap string any)) : list event :=
  (fun dataMap => log_Println [AStr "dataMap: "; AMap dataMap]) <$> dataList.

Definition success_log (n : Z) : event :=
  log_Printf "Successfully batch of %d messages" [AInt n].

(** The create-document directive, written out. *)
Definition create_directive : string :=
  "{ " +:+ dq +:+ "create" +:+ dq +:+ " : { " +:+ dq +:+ "_index" +:+ dq
  +:+ " : " +:+ dq +:+ "twamp-data" +:+ dq +:+ " } }" +:+ nl.

(** The request [bulkInsertToElasticsearch] builds from a filled buffer. *)
Definition bulk_request (buf : string) : BulkRequest :=
  {| Body := buf; Refresh := "true" |}.

(** The error returned for a response with the error indicator set. *)
Definition bulk_error (decoded : error + gmap string any) : error :=
  match decoded with
  | inl err => fmt_Errorf "error parsing the response body: %w" (AErr err)
  | inr resBody => fmt_Errorf "error indexing batch: %s" (AMap resBody)
  end.

Definition detected_log (name : string) : event :=
  fmt_Println [AStr "New .gz file detected:"; AStr name].

(** [m] run after the events [t]. *)
Definition after {A} (t : list event) (m : M A) : M A :=
  (t ++ trace m, outcome m).

(** The reader once the header [headers] has been read from a fresh one. *)
Definition data_reader (headers : list string) (rest : list Lexed) : Reader :=
  {| pending := rest; FieldsPerRecord := len headers |}.

(** The data rows [processGzipFile] gets from [ReadAll]. *)
Definition data_rows (headers : list string) (rest : list Lexed)
  : list (list string) :=
  (ReadAll (data_reader headers rest)).2.1.

(** A file that opens at [filePath], decompresses, and whose first record
    reads without error as [headers], followed by the records [rest]. *)
Definition header_read (filePath : string) (headers : list string)
    (rest : list Lexed) : Prop :=
  exists f, os_Open filePath = inr f
            /\ gzip_header f = None
            /\ csv_text f = (headers, None) :: rest.

(** Every record has the header's number of fields and no lexing error. *)
Definition clean (headers : list string) (rest : list Lexed) : bool :=
  forallb (fun rec : Lexed =>
             (length rec.1 =? length headers)%nat
             && match rec.2 with None => true | Some _ => false end) rest.

(** The messages on which the watch loop runs the handler. *)
Definition triggers (m : msg) : bool :=
  match m with
  | Events_recv event =>
      (Z.land (Op event) Create =? Create) && HasSuffix (Name event) ".gz"
  | _ => false
  end.

(** ** Sample collaborators and inputs

    Stand-ins for the collaborators, used to run the program on concrete
    inputs.  [sample_Marshal] serializes records of plain strings (without
    escaping, fields in the order of the map) and rejects any other
    value; [sample_Decode] accepts only the empty object. *)

Definition is_string (v : any) : bool :=
  match v with AString _ => true | _ => false end.

Definition sample_field (kv : string * any) : string :=
  dq +:+ kv.1 +:+ dq +:+ ":"
  +:+ match kv.2 with AString s => dq +:+ s +:+ dq | _ => "null" end.

Definition sample_Marshal (dataMap : gmap string any) : error + string :=
  if forallb (fun kv : string * any => is_string kv.2) (map_to_list dataMap)
  then inr ("{" +:+ String.concat "," (sample_field <$> map_to_list dataMap)
            +:+ "}")
  else inl (errors_New "json: unsupported type").

Definition sample_Decode (body : string) : error + gmap string any :=
  if String.eqb body "{}" then inr ∅
  else inl (errors_New "invalid character looking for beginning of value").

Definition probe_headers : list string :=
  ["session_id"; "source_port"; "@timestamp"].

Definition probe_rows : list (list string) :=
  [["1"; "5000"; "2024-01-01T00:00:00Z"];
   ["2"; "5001"; "2024-01-01T00:01:00Z"]].

(** The file of the example scenario. *)
Definition probe_001 : File :=
  {| gzip_header := None;
     csv_text := (probe_headers, None)
                 :: ((fun row => (row, None)) <$> probe_rows) |}.

(** The same header, with a second data row that lacks its last cell. *)
Definition probe_short : File :=
  {| gzip_header := None;
     csv_text := [(probe_headers, None);
                  (["1"; "5000"; "2024-01-01T00:00:00Z"], None);
                  (["2"; "5001"], None)] |}.

Definition sample_Open (path : string) : error + File :=
  if String.eqb path "probe_001.gz" then inr probe_001
  else if String.eqb path "probe_short.gz" then inr probe_short
  else inl (errors_New "open: no such file or directory").

Definition accepting : Client :=
  {| Perform := fun _ => inr {| StatusCode := 200; ResBody := "{}" |} |}.

Definition rejecting : Client :=
  {| Perform := fun _ => inr {| StatusCode := 400; ResBody := "{}" |} |}.

Definition bad_gateway : Client :=
  {| Perform := fun _ =>
       inr {| StatusCode := 502; ResBody := "<html>502 Bad Gateway</html>" |} |}.

Definition probe_batch : list (gmap string any) :=
  zipRecord probe_headers <$> probe_rows.

Definition probe_datas : list string :=
  Eval vm_compute in
    omap (fun dataMap => match sample_Marshal dataMap with
                         | inr data => Some data
                         | inl _ => None
                         end) probe_batch.

(** A batch whose second record holds a channel. *)
Definition chan_batch : list (gmap string any) :=
  [ {[ "session_id" := AString "1" ]};
    {[ "session_id" := AOther "chan int" ]} ].

(** A start-up where only the construction of the client fails. *)
Definition no_client : Platform :=
  {| godotenv_Load := fun _ => None;
     os_Getenv := fun key =>
       if String.eqb key "FILE_PATH" then "/data/twamp"
       else if String.eqb key "ES_SERVER" then "://es.example"
       else "";
     elasticsearch_NewClient := fun _ =>
       inl (errors_New "cannot create client: cannot parse url");
     fsnotify_NewWatcher := None;
     watcher_Add := fun _ => None |}.

(** Further sample inputs: a file that is not gzip, an empty file, a row
    with a surplus cell, and a datastore that cannot be reached. *)
Definition not_gzip : File :=
  {| gzip_header := Some (errors_New "gzip: invalid header");
     csv_text := [] |}.

Definition empty_text : File :=
  {| gzip_header := None; csv_text := [] |}.

Definition probe_long : File :=
  {| gzip_header := None;
     csv_text := [(probe_headers, None);
                  (["1"; "5000"; "2024-01-01T00:00:00Z"], None);
                  (["2"; "5001"; "2024-01-01T00:01:00Z"; "extra"], None)] |}.

Definition sample_files (path : string) : error + File :=
  if String.eqb path "probe_001.gz" then inr probe_001
  else if String.eqb path "probe_short.gz" then inr probe_short
  else if String.eqb path "probe_long.gz" then inr probe_long
  else if String.eqb path "not_gzip.gz" then inr not_gzip
  else if String.eqb path "empty.gz" then inr empty_text
  else inl (errors_New "open: no such file or directory").

Definition unreachable : Client :=
  {| Perform := fun _ => inl (errors_New "dial tcp: connection refused") |}.

(** The serialization of the first record of [chan_batch]. *)
Definition chan_datas : list string :=
  Eval vm_compute in
    omap (fun dataMap => match sample_Marshal dataMap with
                         | inr data => Some data
                         | inl _ => None
                         end) (take 1 chan_batch).


(** A start-up where the directory cannot be watched. *)
Definition no_directory : Platform :=
  {| godotenv_Load := fun _ => None;
     os_Getenv := fun key =>
       if String.eqb key "FILE_PATH" then "/data/missing" else "";
     elasticsearch_NewClient := fun _ => inr accepting;
     fsnotify_NewWatcher := None;
     watcher_Add := fun _ => Some (errors_New "no such file or directory") |}.

(** ** Properties *)

Lemma append_cons (x : ascii) (a b : string) :
  String x a +:+ b = String x (a +:+ b).
Proof. reflexivity. Qed.

Lemma append_empty_l (b : string) : "" +:+ b = b.
Proof. reflexivity. Qed.

Lemma append_assoc (a b c : string) : (a +:+ b) +:+ c = a +:+ b +:+ c.
Proof.
  induction a as [|x a IH]; [reflexivity|].
  by rewrite !append_cons, IH.
Qed.

Lemma append_empty_r (a : string) : a +:+ "" = a.
Proof.
  induction a as [|x a IH]; [reflexivity|].
  by rewrite append_cons, IH.
Qed.

Lemma length_append (a b : string) :
  String.length (a +:+ b) = (String.length a + String.length b)%nat.
Proof.
  induction a as [|x a IH]; [reflexivity|].
  rewrite append_cons. simpl. by rewrite IH.
Qed.

Lemma slice_from_append (a b : string) :
  slice_from (String.length a) (a +:+ b) = b.
Proof.
  induction a as [|x a IH]; [by destruct b|].
  rewrite append_cons. exact IH.
Qed.

Lemma slice_from_split (n : nat) (s : string) :
  (n <= String.length s)%nat ->
  exists stem, s = stem +:+ slice_from n s /\ String.length stem = n.
Proof.
  revert s; induction n as [|n IH]; intros s Hn.
  - exists ""; by destruct s.
  - destruct s as [|x s]; simpl in *; [lia|].
    destruct (IH s) as (stem & Hs & Hl); [lia|].
    exists (String x stem). rewrite append_cons. simpl.
    split; [by rewrite <- Hs | by rewrite Hl].
Qed.

Lemma HasSuffix_spec (s suffix : string) :
  HasSuffix s suffix = true <-> ends_with s suffix.
Proof.
  unfold HasSuffix, ends_with. rewrite andb_true_iff, Nat.leb_le, String.eqb_eq.
  split.
  - intros [Hle Heq].
    destruct (slice_from_split (String.length s - String.length suffix) s)
      as (stem & Hs & _); [lia|].
    exists stem. by rewrite Heq in Hs.
  - intros [stem ->]. rewrite length_append. split; [lia|].
    replace (String.length stem + String.length suffix - String.length suffix)%nat
      with (String.length stem) by lia.
    apply slice_from_append.
Qed.

(** *** The record mapper *)

Lemma fill_cons (m : gmap string any) (h c : string) (hs cs : list string) :
  fill m (h :: hs) (c :: cs) = fill (<[h := AString c]> m) hs cs.
Proof. reflexivity. Qed.

Lemma fill_lookup_other (k : string) (hs cs : list string) :
  forall m : gmap string any, k ∉ hs -> fill m hs cs !! k = m !! k.
Proof.
  revert cs; induction hs as [|h hs IH]; intros cs m Hk; [reflexivity|].
  destruct cs as [|c cs]; [reflexivity|].
  apply not_elem_of_cons in Hk as [Hne Hk].
  rewrite fill_cons, IH by done. by rewrite lookup_insert_ne.
Qed.

Lemma fill_lookup_last (hs : list string) :
  forall (cs : list string) (m : gmap string any) (j : nat) (k v : string),
    hs !! j = Some k -> cs !! j = Some v ->
    (forall j', (j < j')%nat -> hs !! j' <> Some k) ->
    fill m hs cs !! k = Some (AString v).
Proof.
  induction hs as [|h hs IH]; intros cs m j k v Hh Hc Hlast; [done|].
  destruct cs as [|c cs]; [done|]. rewrite fill_cons.
  destruct j as [|j]; simpl in *.
  - injection Hh as ->. injection Hc as ->.
    rewrite fill_lookup_other; [by rewrite lookup_insert_eq|].
    intros (j' & Hj')%list_elem_of_lookup_1.
    by apply (Hlast (S j')); [lia|].
  - apply (IH cs _ j); [done..|].
    intros j' Hlt. apply (Hlast (S j')). lia.
Qed.

Lemma fill_nodup (hs : list string) :
  forall (cs : list string) (m : gmap string any),
    NoDup hs ->
    fill m hs cs = list_to_map (zip hs (AString <$> cs)) ∪ m.
Proof.
  induction hs as [|h hs IH]; intros cs m Hnd.
  - simpl. unfold fill. simpl. by rewrite (left_id_L ∅ (∪)).
  - destruct cs as [|c cs].
    + unfold fill. simpl. by rewrite (left_id_L ∅ (∪)).
    + apply NoDup_cons in Hnd as [Hh Hnd].
      rewrite fill_cons, IH by done. simpl.
      rewrite <- insert_union_l. symmetry. apply insert_union_r.
      apply not_elem_of_list_to_map_1.
      intros Hin. apply Hh.
      apply list_elem_of_fmap in Hin as ([k v] & -> & Hin).
      by apply elem_of_zip_l in Hin.
Qed.

Lemma rangeHeaders_fill (headers : list string) :
  forall (j : nat) (row : list string) (dataMap : gmap string any),
    (j + length headers <= length row)%nat ->
    rangeHeaders j headers row dataMap
    = ret (fill dataMap headers (drop j row)).
Proof.
  induction headers as [|h hs IH]; intros j row m Hlen; [reflexivity|].
  simpl in *. destruct (lookup_lt_is_Some_2 row j) as [cell Hcell]; [lia|].
  rewrite Hcell, IH by lia.
  by rewrite (drop_S _ _ _ Hcell), fill_cons.
Qed.

Lemma rangeRows_zip (headers : list string) (rows : list (list string)) :
  forall dataList : list (gmap string any),
    Forall (fun row => (length headers <= length row)%nat) rows ->
    rangeRows headers rows dataList
    = ret (dataList ++ (zipRecord headers <$> rows)).
Proof.
  induction rows as [|row rows IH]; intros dataList Hrows; simpl.
  - by rewrite app_nil_r.
  - apply Forall_cons in Hrows as [Hrow Hrows].
    rewrite rangeHeaders_fill by (simpl; lia). simpl.
    rewrite IH by done. by rewrite <- app_assoc.
Qed.

(** *** The monad *)

Lemma bind_emit {A} (e : event) (k : unit -> M A) :
  bind (emit e) k = after [e] (k tt).
Proof. unfold bind, emit, after, trace, outcome. by destruct (k tt). Qed.

Lemma bind_ret {A B} (a : A) (k : A -> M B) : bind (ret a) k = k a.
Proof. unfold bind, ret. by destruct (k a). Qed.

Lemma after_after {A} (t t' : list event) (m : M A) :
  after t (after t' m) = after (t ++ t') m.
Proof. unfold after, trace, outcome. simpl. by rewrite app_assoc. Qed.

Lemma after_nil {A} (m : M A) : after [] m = m.
Proof. by destruct m. Qed.

Lemma bind_after {A B} (t : list event) (m : M A) (k : A -> M B) :
  bind (after t m) k = after t (bind m k).
Proof.
  destruct m as [t' [a|c|p]]; unfold after, bind, trace, outcome; simpl;
    [|done..].
  destruct (k a). simpl. by rewrite app_assoc.
Qed.

Lemma requests_app (t t' : list event) :
  requests (t ++ t') = requests t ++ requests t'.
Proof.
  induction t as [|e t IH]; [done|]. destruct e; simpl; by rewrite ?IH.
Qed.

(** *** The CSV reader *)

Lemma Read_header (headers : list string) (rest : list Lexed) :
  Read (csv_NewReader ((headers, None) :: rest))
  = (data_reader headers rest, (headers, None)).
Proof. reflexivity. Qed.

(** [ReadAll] never runs out of its count: any count above the number of
    pending records gives the same result. *)
Lemma ReadAll_from_fuel (fuel : nat) :
  forall (fuel' : nat) (r : Reader) (acc : list (list string)),
    (length (pending r) < fuel)%nat -> (length (pending r) < fuel')%nat ->
    ReadAll_from fuel r acc = ReadAll_from fuel' r acc.
Proof.
  induction fuel as [|fuel IH]; intros fuel' [text n] acc Hf Hf'; [lia|].
  destruct fuel' as [|fuel']; [lia|]. cbn [ReadAll_from].
  destruct text as [|[dst lexerr] rest]; unfold readRecord; simpl in *;
    [reflexivity|].
  destruct (0 <? n);
    [destruct (negb (len dst =? n))|destruct (n =? 0)];
    destruct lexerr; simpl; try reflexivity; apply IH; simpl; lia.
Qed.

Lemma ReadAll_from_rows (rows : list (list string)) :
  forall (fuel : nat) (n : Z) (acc : list (list string)),
    Forall (fun row => len row = n) rows ->
    (length rows < fuel)%nat ->
    exists r',
      ReadAll_from fuel
        {| pending := (fun row => (row, None)) <$> rows;
           FieldsPerRecord := n |} acc
      = (r', (acc ++ rows, None)).
Proof.
  induction rows as [|row rows IH]; intros fuel n acc Hn Hfuel;
    (destruct fuel as [|fuel]; [simpl in Hfuel; lia|]).
  - eexists. simpl. unfold readRecord. simpl. by rewrite app_nil_r.
  - apply Forall_cons in Hn as [Hrow Hn]. simpl in Hfuel.
    simpl. unfold readRecord. simpl.
    destruct (0 <? n) eqn:Hpos.
    + rewrite Hrow, Z.eqb_refl. simpl.
      destruct (IH fuel n (acc ++ [row])) as [r' Hr']; [done|lia|].
      exists r'. rewrite <- app_assoc in Hr'. exact Hr'.
    + destruct (n =? 0) eqn:Hz.
      * simpl. destruct (IH fuel n (acc ++ [row])) as [r' Hr']; [done|lia|].
        exists r'. rewrite <- app_assoc in Hr'.
        clear Hz Hpos. subst n. exact Hr'.
      * simpl. destruct (IH fuel n (acc ++ [row])) as [r' Hr']; [done|lia|].
        exists r'. rewrite <- app_assoc in Hr'. exact Hr'.
Qed.

Lemma ReadAll_from_mismatch (text : list Lexed) :
  forall (fuel : nat) (n : Z) (acc : list (list string)),
    0 < n ->
    (exists row lexerr, (row, lexerr) ∈ text /\ len row <> n) ->
    (length text < fuel)%nat ->
    exists r' e,
      ReadAll_from fuel {| pending := text; FieldsPerRecord := n |} acc
      = (r', ([], Some e)).
Proof.
  induction text as [|[dst lexerr] text IH]; intros fuel n acc Hpos Hbad Hfuel.
  - destruct Hbad as (? & ? & Hin & _). by apply elem_of_nil in Hin.
  - destruct fuel as [|fuel]; [simpl in Hfuel; lia|]. simpl in Hfuel.
    simpl. unfold readRecord. simpl.
    apply Z.ltb_lt in Hpos as Hpos'. rewrite Hpos'.
    destruct lexerr as [text'|]; simpl.
    + rewrite andb_false_r. by eexists _, _.
    + rewrite andb_true_r. destruct (len dst =? n) eqn:Hlen; simpl.
      * apply IH; [done| |lia].
        destruct Hbad as (row & le & Hin & Hne).
        apply elem_of_cons in Hin as [Heq|Hin]; [|by eexists _, _].
        injection Heq as -> ->. by apply Z.eqb_eq in Hlen.
      * by eexists _, _.
Qed.

Lemma ReadAll_from_arity (fuel : nat) :
  forall (text : list Lexed) (n : Z) (acc rows : list (list string))
         (r' : Reader) (err : option error),
    0 < n ->
    ReadAll_from fuel {| pending := text; FieldsPerRecord := n |} acc
    = (r', (rows, err)) ->
    Forall (fun row => len row = n) acc ->
    Forall (fun row => len row = n) rows.
Proof.
  induction fuel as [|fuel IH]; intros text n acc rows r' err Hpos Hrun Hacc.
  - simpl in Hrun. by injection Hrun as _ <- _.
  - simpl in Hrun. unfold readRecord in Hrun. simpl in Hrun.
    destruct text as [|[dst lexerr] text]; simpl in Hrun.
    + by injection Hrun as _ <- _.
    + apply Z.ltb_lt in Hpos as Hpos'. rewrite Hpos' in Hrun.
      destruct lexerr as [text'|]; simpl in Hrun.
      * rewrite andb_false_r in Hrun. by injection Hrun as _ <- _.
      * rewrite andb_true_r in Hrun.
        destruct (len dst =? n) eqn:Hlen; simpl in Hrun.
        -- apply (IH _ _ _ _ _ _ Hpos Hrun).
           apply Forall_app; split; [done|].
           apply Forall_singleton. by apply Z.eqb_eq.
        -- by injection Hrun as _ <- _.
Qed.

Lemma data_rows_wide (headers : list string) (rest : list Lexed) :
  Forall (fun row => (length headers <= length row)%nat)
         (data_rows headers rest).
Proof.
  unfold data_rows, ReadAll.
  destruct (ReadAll_from _ (data_reader headers rest) [])
    as [r' [rows err]] eqn:Hrun.
  cbn [fst snd]. unfold data_reader in Hrun.
  destruct (decide (0 < len headers)) as [Hpos|Hz].
  - apply ReadAll_from_arity in Hrun; [|done|done].
    eapply Forall_impl; [exact Hrun|]. unfold len. intros row Hrow. lia.
  - apply Forall_forall. intros row _. unfold len in Hz. lia.
Qed.

Lemma data_rows_well_formed (headers : list string) (rows : list (list string)) :
  Forall (fun row => length row = length headers) rows ->
  data_rows headers ((fun row => (row, None)) <$> rows) = rows.
Proof.
  intros Hrows.
  destruct (ReadAll_from_rows rows (S (length rows)) (len headers) [])
    as [r' Hr'].
  - eapply Forall_impl; [exact Hrows|]. unfold len. intros row Hrow.
    simpl in Hrow. by rewrite Hrow.
  - lia.
  - unfold data_rows, ReadAll, data_reader. cbn [pending].
    by rewrite length_fmap, Hr'.
Qed.

Lemma data_rows_short (headers : list string) (rest : list Lexed) :
  (exists row lexerr, (row, lexerr) ∈ rest
     /\ (length row < length headers)%nat) ->
  data_rows headers rest = []
  /\ exists e, (ReadAll (data_reader headers rest)).2.2 = Some e.
Proof.
  intros (row & lexerr & Hin & Hlt).
  destruct (ReadAll_from_mismatch rest (S (length rest)) (len headers) [])
    as (r' & e & Hr').
  - unfold len. lia.
  - exists row, lexerr. split; [done|]. unfold len. lia.
  - lia.
  - unfold data_rows, ReadAll, data_reader. cbn [pending].
    rewrite Hr'. eauto.
Qed.


(** *** The per-file handler on a file whose header is read *)

Lemma processGzipFile_decoded (es : option Client) (filePath : string)
    (f : File) (headers : list string) (rest : list Lexed) :
  os_Open filePath = inr f ->
  gzip_header f = None ->
  csv_text f = (headers, None) :: rest ->
  processGzipFile es filePath
  = after (decoded_log filePath headers (len (data_rows headers rest)))
          (_ <- bulkInsertToElasticsearch
                  (zipRecord headers <$> data_rows headers rest) es ;;
           ret tt).
Proof.
  intros Hopen Hgz Htext. unfold processGzipFile.
  rewrite bind_emit, Hopen. unfold gzip_NewReader.
  rewrite Hgz, Htext, Read_header. cbv beta iota.
  rewrite bind_emit, after_after.
  pose proof (data_rows_wide headers rest) as Hwide. unfold data_rows in *.
  destruct (ReadAll (data_reader headers rest)) as [r' [rows err]].
  cbn [fst snd] in *.
  rewrite rangeRows_zip by done. rewrite bind_ret, bind_emit, after_after.
  cbn [app]. unfold decoded_log, len. by rewrite length_fmap.
Qed.

(** *** The indexer *)

Lemma rangeDataList_ok (dataList : list (gmap string any)) (datas : list string) :
  Forall2 (fun dataMap data => json_Marshal dataMap = inr data) dataList datas ->
  forall buf,
    rangeDataList dataList buf
    = (dataMap_log dataList, Return (inr (buf +:+ payload datas))).
Proof.
  induction 1 as [|dataMap data dataList datas Hm _ IH]; intros buf.
  - simpl. by rewrite append_empty_r.
  - cbn [rangeDataList]. rewrite bind_emit, Hm, IH.
    unfold after, trace, outcome. cbn [fst snd payload].
    unfold two_lines. by rewrite !append_assoc.
Qed.

Lemma rangeDataList_quiet (dataList : list (gmap string any)) :
  forall buf, exists t filled,
    rangeDataList dataList buf = (t, Return filled) /\ requests t = [].
Proof.
  induction dataList as [|dataMap dataList IH]; intros buf.
  - by exists [], (inr buf).
  - cbn [rangeDataList]. rewrite bind_emit.
    destruct (json_Marshal dataMap) as [err|data].
    + by eexists _, _.
    + destruct (IH (buf +:+ meta +:+ data +:+ nl)) as (t & filled & -> & Ht).
      by eexists _, _.
Qed.

Lemma rangeDataList_fail (dataList : list (gmap string any)) :
  (exists dataMap, dataMap ∈ dataList /\ exists e, json_Marshal dataMap = inl e) ->
  forall buf, exists t dataMap e,
    dataMap ∈ dataList /\ json_Marshal dataMap = inl e
    /\ rangeDataList dataList buf
       = (t, Return (inl (fmt_Errorf "error marshalling dataMap: %w" (AErr e))))
    /\ requests t = [].
Proof.
  induction dataList as [|dataMap dataList IH]; intros (bad & Hin & e & He) buf.
  - by apply elem_of_nil in Hin.
  - cbn [rangeDataList]. rewrite bind_emit.
    destruct (json_Marshal dataMap) as [err|data] eqn:Hm.
    + eexists _, dataMap, err. by repeat split; [left|..].
    + destruct (IH) with (buf := buf +:+ meta +:+ data +:+ nl)
        as (t & dataMap' & e' & Hin' & He' & -> & Ht).
      * apply elem_of_cons in Hin as [->|Hin]; [congruence|eauto].
      * eexists _, dataMap', e'. by repeat split; [right|..].
Qed.


Lemma trace_after {A} (t : list event) (m : M A) :
  trace (after t m) = t ++ trace m.
Proof. reflexivity. Qed.

Lemma outcome_after {A} (t : list event) (m : M A) :
  outcome (after t m) = outcome m.
Proof. reflexivity. Qed.

Lemma trace_bind_ret {A} (m : M A) : trace (_ <- m ;; ret tt) = trace m.
Proof.
  destruct m as [t [a|c|p]]; unfold bind, ret, trace; simpl; [|done..].
  by rewrite app_nil_r.
Qed.

Lemma after_ret {A} (t : list event) (a : A) :
  after t (ret a) = (t, Return a).
Proof. unfold after, ret, trace, outcome. simpl. by rewrite app_nil_r. Qed.

Lemma bulkInsert_submitted (dataList : list (gmap string any))
    (datas : list string) (c : Client) :
  Forall2 (fun dataMap data => json_Marshal dataMap = inr data) dataList datas ->
  let req := {| Body := payload datas; Refresh := "true" |} in
  bulkInsertToElasticsearch dataList (Some c)
  = after (dataMap_log dataList ++ [Bulk_Do req])
      match Perform c req with
      | inl err =>
          ret (Some (fmt_Errorf "failure indexing batch: %w" (AErr err)))
      | inr res =>
          if IsError res then
            match json_Decode (ResBody res) with
            | inl err =>
                ret (Some (fmt_Errorf "error parsing the response body: %w"
                                      (AErr err)))
            | inr resBody =>
                ret (Some (fmt_Errorf "error indexing batch: %s"
                                      (AMap resBody)))
            end
          else ([success_log (len dataList)], Return None)
      end.
Proof.
  intros Hm req. unfold bulkInsertToElasticsearch.
  rewrite (rangeDataList_ok _ _ Hm). rewrite append_empty_l. fold req.
  rewrite <- after_ret.
  rewrite bind_after, bind_ret. unfold BulkRequest_Do.
  rewrite bind_emit, bind_after, bind_ret, after_after.
  reflexivity.
Qed.

Lemma bulkInsert_success (dataList : list (gmap string any)) (es : option Client) :
  outcome (bulkInsertToElasticsearch dataList es) = Return None ->
  last (trace (bulkInsertToElasticsearch dataList es))
  = Some (success_log (len dataList)).
Proof.
  unfold bulkInsertToElasticsearch.
  destruct (rangeDataList_quiet dataList "") as (t & filled & -> & _).
  rewrite <- after_ret.
  rewrite bind_after, bind_ret, outcome_after, trace_after.
  destruct filled as [err|buf]; [done|].
  unfold BulkRequest_Do. destruct es as [c|]; [|done].
  rewrite bind_emit, bind_after, bind_ret, outcome_after, trace_after.
  destruct (Perform c _) as [err|res]; [done|].
  destruct (IsError res).
  - by destruct (json_Decode (ResBody res)).
  - intros _. rewrite bind_emit. unfold after, ret, trace. simpl.
    by rewrite !last_app.
Qed.


(** *** The claims *)

(** C1 (header framing).  For a file that opens, decompresses and reads as
    the header [headers] followed by [rows], all of the header's arity,
    the record handed to the indexer for the [i]-th data row has exactly
    the header names as keys, each bound to the cell of the same position
    (the last such position where a name is repeated); with distinct
    header names it is the map [{h_1: r_1, ..., h_n: r_n}]. *)
Theorem C1_header_framing (es : option Client) (filePath : string) (f : File)
    (headers : list string) (rows : list (list string))
    (i : nat) (row : list string) :
  os_Open filePath = inr f ->
  well_formed f headers rows ->
  rows !! i = Some row ->
  exists dataList dataMap,
    rangeRows headers rows [] = ret dataList
    /\ processGzipFile es filePath
       = after (decoded_log filePath headers (len rows))
               (_ <- bulkInsertToElasticsearch dataList es ;; ret tt)
    /\ dataList !! i = Some dataMap
    /\ (forall (j : nat) (k v : string),
          headers !! j = Some k -> row !! j = Some v ->
          (forall j', (j < j')%nat -> headers !! j' <> Some k) ->
          dataMap !! k = Some (AString v))
    /\ (forall k : string, k ∉ headers -> dataMap !! k = None)
    /\ (NoDup headers ->
        dataMap = list_to_map (zip headers (AString <$> row))).
Proof.
  intros Hopen (Hgz & Htext & Hrows) Hrow.
  exists (zipRecord headers <$> rows), (zipRecord headers row).
  split; [|split; [|split; [|split; [|split]]]].
  - apply (rangeRows_zip headers rows []).
    eapply Forall_impl; [exact Hrows|]. intros r Hr. simpl in Hr. lia.
  - rewrite (processGzipFile_decoded es _ _ _ _ Hopen Hgz Htext).
    by rewrite data_rows_well_formed.
  - by rewrite list_lookup_fmap, Hrow.
  - intros j k v Hk Hv Hlast. by apply (fill_lookup_last _ _ _ j).
  - intros k Hk. unfold zipRecord. by rewrite fill_lookup_other.
  - intros Hnd. unfold zipRecord.
    by rewrite fill_nodup, (right_id_L ∅ (∪)).
Qed.

(** C5 (row count preservation).  For a well-formed file the batch handed
    to the indexer has as many records as the file has data rows, that
    number is what the handler logs as the length, and when the indexer
    succeeds it is the batch size of the success report. *)
Theorem C5_row_count (es : option Client) (filePath : string) (f : File)
    (headers : list string) (rows : list (list string)) :
  os_Open filePath = inr f ->
  well_formed f headers rows ->
  let dataList := zipRecord headers <$> rows in
  rangeRows headers rows [] = ret dataList
  /\ length dataList = length rows
  /\ processGzipFile es filePath
     = after (decoded_log filePath headers (len rows))
             (_ <- bulkInsertToElasticsearch dataList es ;; ret tt)
  /\ (outcome (bulkInsertToElasticsearch dataList es) = Return None ->
      last (trace (processGzipFile es filePath))
      = Some (success_log (len rows))).
Proof.
  intros Hopen (Hgz & Htext & Hrows) dataList. subst dataList.
  assert (processGzipFile es filePath
          = after (decoded_log filePath headers (len rows))
              (_ <- bulkInsertToElasticsearch (zipRecord headers <$> rows) es ;;
               ret tt)) as Hrun.
  { rewrite (processGzipFile_decoded es _ _ _ _ Hopen Hgz Htext).
    by rewrite data_rows_well_formed. }
  split.
  { apply (rangeRows_zip headers rows []).
    eapply Forall_impl; [exact Hrows|]. intros r Hr. simpl in Hr. lia. }
  split; [by rewrite length_fmap|]. split; [done|].
  intros Hok. rewrite Hrun, trace_after, trace_bind_ret.
  apply bulkInsert_success in Hok as Hlast.
  unfold len in Hlast. rewrite length_fmap in Hlast.
  destruct (trace (bulkInsertToElasticsearch _ es)) as [|e t] eqn:Ht; [done|].
  rewrite last_app. by rewrite Hlast.
Qed.


(** C2 (bulk payload).  For a non-empty batch whose records serialize to
    [datas], the indexer performs exactly one bulk request: its body is,
    record by record and in order, the create directive for
    ["twamp-data"] on one line and the record's serialization on the next,
    and its refresh flag is ["true"]. *)
Theorem C2_bulk_payload (dataList : list (gmap string any))
    (datas : list string) (c : Client) :
  dataList <> [] ->
  Forall2 (fun dataMap data => json_Marshal dataMap = inr data) dataList datas ->
  requests (trace (bulkInsertToElasticsearch dataList (Some c)))
  = [ {| Body := payload datas; Refresh := "true" |} ]
  /\ (forall data datas',
        payload (data :: datas')
        = create_directive +:+ data +:+ nl +:+ payload datas')
  /\ payload [] = "".
Proof.
  intros _ Hm. split; [|split; [|done]].
  - rewrite (bulkInsert_submitted _ _ _ Hm), trace_after, !requests_app.
    assert (requests (dataMap_log dataList) = []) as ->.
    { clear. by induction dataList. }
    simpl. destruct (Perform c _) as [err|res]; [done|].
    destruct (IsError res); [|done].
    by destruct (json_Decode (ResBody res)).
  - intros data datas'. cbn [payload]. unfold two_lines.
    by rewrite !append_assoc.
Qed.

(** C3 (batch atomicity of serialization).  If some record of the batch
    does not serialize, the indexer returns the marshalling error of such
    a record and performs no bulk request, whatever the client. *)
Theorem C3_serialization_atomic (dataList : list (gmap string any))
    (es : option Client) :
  (exists dataMap, dataMap ∈ dataList /\ exists e, json_Marshal dataMap = inl e) ->
  exists dataMap e,
    dataMap ∈ dataList /\ json_Marshal dataMap = inl e
    /\ outcome (bulkInsertToElasticsearch dataList es)
       = Return (Some (fmt_Errorf "error marshalling dataMap: %w" (AErr e)))
    /\ requests (trace (bulkInsertToElasticsearch dataList es)) = [].
Proof.
  intros Hbad.
  destruct (rangeDataList_fail dataList Hbad "")
    as (t & dataMap & e & Hin & He & Hrun & Ht).
  exists dataMap, e. unfold bulkInsertToElasticsearch.
  rewrite Hrun, <- after_ret, bind_after, bind_ret.
  repeat split; [done..|].
  rewrite trace_after, requests_app, Ht. done.
Qed.

(** C4 (error surfacing), as the code has it.  When the batch serializes
    and the response to the bulk request has its error indicator set, the
    indexer returns an error and reports no success: the error carries
    the decoded response body when the body decodes, and the decoding
    error otherwise.  Nothing but the indicator is looked at: a response
    without it is a success reported with the batch size, whatever its
    body. *)
Theorem C4_error_surfacing (dataList : list (gmap string any))
    (datas : list string) (c : Client) (res : Response) :
  Forall2 (fun dataMap data => json_Marshal dataMap = inr data) dataList datas ->
  Perform c (bulk_request (payload datas)) = inr res ->
  (IsError res = true ->
     outcome (bulkInsertToElasticsearch dataList (Some c))
     = Return (Some (bulk_error (json_Decode (ResBody res))))
     /\ (forall resBody, json_Decode (ResBody res) = inr resBody ->
         outcome (bulkInsertToElasticsearch dataList (Some c))
         = Return (Some (fmt_Errorf "error indexing batch: %s" (AMap resBody))))
     /\ forall n, success_log n ∉ trace (bulkInsertToElasticsearch dataList (Some c)))
  /\ (IsError res = false ->
     outcome (bulkInsertToElasticsearch dataList (Some c)) = Return None
     /\ last (trace (bulkInsertToElasticsearch dataList (Some c)))
        = Some (success_log (len dataList))).
Proof.
  intros Hm Hdo. unfold bulk_request in Hdo.
  rewrite (bulkInsert_submitted _ _ _ Hm), Hdo, outcome_after, trace_after.
  split; intros ->.
  - split; [by destruct (json_Decode (ResBody res))|]. split.
    + by intros resBody ->.
    + intros n Hin. apply elem_of_app in Hin as [Hin|Hin].
      * apply elem_of_app in Hin as [Hin|Hin].
        -- unfold dataMap_log in Hin.
           by apply list_elem_of_fmap in Hin as (dataMap & Heq & _).
        -- by apply list_elem_of_singleton in Hin.
      * destruct (json_Decode (ResBody res)); by apply elem_of_nil in Hin.
  - split; [done|]. unfold trace. simpl. by rewrite last_app.
Qed.

(** *** The watch loop *)

Lemma processGzipFile_opens (es : option Client) (filePath : string) :
  exists m : M unit,
    processGzipFile es filePath = after [os_Open_call filePath] m.
Proof. unfold processGzipFile. rewrite bind_emit. by eexists. Qed.

Lemma onEvent_gz (es : option Client) (event : Event) :
  is_creation event -> ends_with (Name event) ".gz" ->
  onEvent es event
  = after [detected_log (Name event)] (processGzipFile es (Name event)).
Proof.
  intros Hc Hs. unfold onEvent. unfold is_creation in Hc.
  apply HasSuffix_spec in Hs. rewrite Hc, Hs, Z.eqb_refl. cbn [andb].
  by rewrite bind_emit.
Qed.

Lemma onEvent_other (es : option Client) (event : Event) :
  ~ ends_with (Name event) ".gz" -> onEvent es event = ret tt.
Proof.
  intros Hs. unfold onEvent. rewrite <- HasSuffix_spec in Hs.
  apply not_true_is_false in Hs. by rewrite Hs, andb_false_r.
Qed.

(** C6 (suffix filtering).  On a creation event the watch loop opens the
    named file, the first step of the ingestion pipeline, if and only if
    the name ends with [".gz"]: then the handler runs on that path, and
    otherwise the loop goes on exactly as if the event had not come. *)
Theorem C6_suffix_filter (es : option Client) (event : Event) :
  is_creation event ->
  (os_Open_call (Name event) ∈ trace (watchLoop es [Events_recv event])
   <-> ends_with (Name event) ".gz")
  /\ (ends_with (Name event) ".gz" ->
      forall msgs,
        watchLoop es (Events_recv event :: msgs)
        = after [detected_log (Name event)]
                (processGzipFile es (Name event) ;;; watchLoop es msgs))
  /\ (~ ends_with (Name event) ".gz" ->
      forall msgs,
        watchLoop es (Events_recv event :: msgs) = watchLoop es msgs).
Proof.
  intros Hc. split; [split|split].
  - intros Hin. destruct (decide (HasSuffix (Name event) ".gz" = true))
      as [Hs|Hs]; [by apply HasSuffix_spec|].
    rewrite HasSuffix_spec in Hs. cbn [watchLoop] in Hin.
    rewrite (onEvent_other _ _ Hs), bind_ret in Hin.
    by apply elem_of_nil in Hin.
  - intros Hs. cbn [watchLoop]. rewrite (onEvent_gz _ _ Hc Hs).
    destruct (processGzipFile_opens es (Name event)) as [m ->].
    rewrite after_after, bind_after, trace_after.
    apply elem_of_app. left. cbn [app]. apply elem_of_cons. right.
    by apply list_elem_of_singleton.
  - intros Hs msgs. cbn [watchLoop].
    by rewrite (onEvent_gz _ _ Hc Hs), bind_after.
  - intros Hs msgs. cbn [watchLoop]. by rewrite (onEvent_other _ _ Hs), bind_ret.
Qed.

(** C9 (unopenable file).  When the file cannot be opened the handler
    logs the error and exits the process with status 1; a watch loop that
    receives the creation event of such a [.gz] file ends there, whatever
    messages would have followed. *)
Theorem C9_open_failure_fatal (es : option Client) (filePath : string)
    (err : error) :
  os_Open filePath = inl err ->
  processGzipFile es filePath
  = ([os_Open_call filePath; log_Fatal_out [AErr err]], os_Exit 1)
  /\ forall (event : Event) (msgs : list msg),
       Name event = filePath -> is_creation event ->
       ends_with filePath ".gz" ->
       watchLoop es (Events_recv event :: msgs)
       = ([detected_log filePath; os_Open_call filePath;
           log_Fatal_out [AErr err]], os_Exit 1).
Proof.
  intros Hopen.
  assert (processGzipFile es filePath
          = ([os_Open_call filePath; log_Fatal_out [AErr err]], os_Exit 1))
    as Hrun.
  { unfold processGzipFile. by rewrite bind_emit, Hopen. }
  split; [done|]. intros event msgs <- Hc Hs. cbn [watchLoop].
  by rewrite (onEvent_gz _ _ Hc Hs), Hrun.
Qed.


(** *** Rows that do not match the header *)

Lemma ReadAll_from_error_nil (fuel : nat) :
  forall (r r' : Reader) (acc rows : list (list string)) (e : error),
    ReadAll_from fuel r acc = (r', (rows, Some e)) -> rows = [].
Proof.
  induction fuel as [|fuel IH]; intros r r' acc rows e Hrun; [done|].
  cbn [ReadAll_from] in Hrun.
  destruct (readRecord r) as [r1 [record [err|]]].
  - destruct err; by simplify_eq.
  - by apply IH in Hrun.
Qed.

Lemma data_rows_error (headers : list string) (rest : list Lexed) (e : error) :
  (ReadAll (data_reader headers rest)).2.2 = Some e ->
  data_rows headers rest = [].
Proof.
  unfold data_rows, ReadAll.
  destruct (ReadAll_from _ (data_reader headers rest) [])
    as [r' [rows err]] eqn:Hrun.
  cbn [fst snd]. intros ->. by apply ReadAll_from_error_nil in Hrun.
Qed.

Lemma data_rows_header_only (headers : list string) :
  data_rows headers [] = [].
Proof. reflexivity. Qed.


Lemma rangeHeaders_short (headers : list string) :
  forall (j : nat) (row : list string) (dataMap : gmap string any),
    (j <= length row < j + length headers)%nat ->
    rangeHeaders j headers row dataMap
    = throw (IndexOutOfRange (length row) (length row)).
Proof.
  induction headers as [|h hs IH]; intros j row m Hj; simpl in *; [lia|].
  destruct (row !! j) as [cell|] eqn:Hcell.
  - apply lookup_lt_Some in Hcell as Hlt. apply IH. lia.
  - apply lookup_ge_None in Hcell.
    by replace j with (length row) by lia.
Qed.



(** C10 (empty batch).  When the header is read and the data rows come
    out empty, because the file has nothing after the header, because
    [ReadAll] returned an error, or in particular because some row is
    shorter than the header, the indexer is still called with a client:
    exactly one bulk request is performed, with an empty body. *)
Theorem C10_empty_batch (c : Client) (filePath : string) (f : File)
    (headers : list string) (rest : list Lexed) :
  os_Open filePath = inr f ->
  gzip_header f = None ->
  csv_text f = (headers, None) :: rest ->
  rest = []
  \/ (exists e, (ReadAll (data_reader headers rest)).2.2 = Some e)
  \/ (exists row lexerr, (row, lexerr) ∈ rest
        /\ (length row < length headers)%nat) ->
  data_rows headers rest = []
  /\ processGzipFile (Some c) filePath
     = after (decoded_log filePath headers 0)
             (_ <- bulkInsertToElasticsearch [] (Some c) ;; ret tt)
  /\ requests (trace (processGzipFile (Some c) filePath))
     = [ {| Body := ""; Refresh := "true" |} ].
Proof.
  intros Hopen Hgz Htext Hcase.
  assert (data_rows headers rest = []) as Hrows.
  { destruct Hcase as [->|[[e He]|Hshort]].
    - apply data_rows_header_only.
    - by apply data_rows_error in He.
    - by destruct (data_rows_short headers rest Hshort). }
  split; [done|].
  rewrite (processGzipFile_decoded _ _ _ _ _ Hopen Hgz Htext), Hrows.
  split; [done|].
  rewrite trace_after, trace_bind_ret, requests_app. cbn [fmap list_fmap].
  rewrite (bulkInsert_submitted [] [] c) by constructor.
  rewrite trace_after, requests_app. cbn [dataMap_log fmap list_fmap app payload].
  simpl. destruct (Perform c _) as [err|res]; [done|].
  destruct (IsError res); [|done].
  by destruct (json_Decode (ResBody res)).
Qed.

(** *** Start-up *)

(** C8, at the code.  When the client cannot be constructed and the rest
    of the start-up succeeds, [main] does not exit: it logs the error and
    enters the watch loop with a nil client. *)
Theorem C8_client_failure_not_fatal (p : Platform) (msgs : list msg)
    (err : error) :
  godotenv_Load p ".env" = None ->
  elasticsearch_NewClient p
    {| Addresses := [os_Getenv p "ES_SERVER"];
       Username := os_Getenv p "ES_USER";
       Password := os_Getenv p "ES_PASSWORD";
       InsecureSkipVerify := true |} = inl err ->
  fsnotify_NewWatcher p = None ->
  watcher_Add p (os_Getenv p "FILE_PATH") = None ->
  main p msgs
  = after [log_Printf "Error createing Elasticsearch client: %s" [AErr err]]
          (watchLoop None msgs)
  /\ outcome (main p []) = Return tt.
Proof.
  intros Henv Hes Hw Hadd.
  assert (forall l, main p l
          = after [log_Printf "Error createing Elasticsearch client: %s"
                              [AErr err]] (watchLoop None l)) as Hrun.
  { intros l. unfold main.
    by rewrite Henv, Hes, bind_emit, bind_after, bind_ret, Hw, Hadd. }
  split; [apply Hrun|]. by rewrite Hrun.
Qed.


(** ** Further properties of the program *)

(** *** The indexer *)

Lemma bulkInsert_returns (dataList : list (gmap string any)) (c : Client) :
  exists r, outcome (bulkInsertToElasticsearch dataList (Some c)) = Return r.
Proof.
  unfold bulkInsertToElasticsearch.
  destruct (rangeDataList_quiet dataList "") as (t & filled & -> & _).
  rewrite <- after_ret, bind_after, bind_ret, outcome_after.
  destruct filled as [err|buf]; [by eexists|].
  unfold BulkRequest_Do.
  rewrite bind_emit, bind_after, bind_ret, outcome_after.
  destruct (Perform c _) as [err|res]; [by eexists|].
  destruct (IsError res).
  - destruct (json_Decode (ResBody res)); by eexists.
  - rewrite bind_emit. by eexists.
Qed.

Lemma rangeDataList_cases (dataList : list (gmap string any)) :
  (exists datas,
     Forall2 (fun dataMap data => json_Marshal dataMap = inr data)
             dataList datas)
  \/ (exists dataMap,
        dataMap ∈ dataList /\ exists e, json_Marshal dataMap = inl e).
Proof.
  induction dataList as [|dataMap dataList IH].
  - left. exists []. constructor.
  - destruct (json_Marshal dataMap) as [e|data] eqn:Hm.
    + right. exists dataMap. split; [by left|by exists e].
    + destruct IH as [[datas Hok]|(bad & Hin & Hbad)].
      * left. exists (data :: datas). by constructor.
      * right. exists bad. split; [by right|done].
Qed.

Lemma rangeDataList_prefix (pre : list (gmap string any)) (datas : list string) :
  Forall2 (fun dataMap data => json_Marshal dataMap = inr data) pre datas ->
  forall (rest : list (gmap string any)) (buf : string),
    rangeDataList (pre ++ rest) buf
    = after (dataMap_log pre) (rangeDataList rest (buf +:+ payload datas)).
Proof.
  induction 1 as [|dataMap data pre datas Hm _ IH]; intros rest buf.
  - cbn [app payload dataMap_log fmap list_fmap].
    by rewrite after_nil, append_empty_r.
  - cbn [app rangeDataList]. rewrite bind_emit, Hm, IH, after_after.
    cbn [payload]. unfold two_lines. by rewrite !append_assoc.
Qed.

Lemma requests_dataMap_log (dataList : list (gmap string any)) :
  requests (dataMap_log dataList) = [].
Proof. by induction dataList. Qed.

Lemma bulkInsert_one_request (dataList : list (gmap string any))
    (datas : list string) (c : Client) :
  Forall2 (fun dataMap data => json_Marshal dataMap = inr data) dataList datas ->
  requests (trace (bulkInsertToElasticsearch dataList (Some c)))
  = [bulk_request (payload datas)].
Proof.
  intros Hm.
  rewrite (bulkInsert_submitted _ _ _ Hm), trace_after, !requests_app.
  rewrite requests_dataMap_log. simpl.
  destruct (Perform c _) as [err|res]; [done|].
  destruct (IsError res); [|done].
  by destruct (json_Decode (ResBody res)).
Qed.

(** X1 (transport failure).  When the batch serializes and performing the
    bulk request fails, the indexer has logged every record and performed
    that one request, reports no success, and returns the transport error
    wrapped as a failure to index the batch. *)
Theorem bulkInsert_transport_failure (dataList : list (gmap string any))
    (datas : list string) (c : Client) (err : error) :
  Forall2 (fun dataMap data => json_Marshal dataMap = inr data) dataList datas ->
  Perform c (bulk_request (payload datas)) = inl err ->
  bulkInsertToElasticsearch dataList (Some c)
  = (dataMap_log dataList ++ [Bulk_Do (bulk_request (payload datas))],
     Return (Some (fmt_Errorf "failure indexing batch: %w" (AErr err)))).
Proof.
  intros Hm Hdo. unfold bulk_request in *.
  by rewrite (bulkInsert_submitted _ _ _ Hm), Hdo, after_ret.
Qed.

(** X2 (first failing record).  When the records before some record
    serialize and that record does not, the indexer stops there: it has
    logged the records up to and including that one, it returns that
    record's marshalling error, and the records after it are neither
    logged nor serialized. *)
Theorem bulkInsert_first_failure (pre post : list (gmap string any))
    (bad : gmap string any) (datas : list string) (e : error)
    (es : option Client) :
  Forall2 (fun dataMap data => json_Marshal dataMap = inr data) pre datas ->
  json_Marshal bad = inl e ->
  bulkInsertToElasticsearch (pre ++ bad :: post) es
  = (dataMap_log (pre ++ [bad]),
     Return (Some (fmt_Errorf "error marshalling dataMap: %w" (AErr e)))).
Proof.
  intros Hpre Hbad. unfold bulkInsertToElasticsearch.
  rewrite (rangeDataList_prefix _ _ Hpre). cbn [rangeDataList].
  rewrite bind_emit, Hbad, after_after, bind_after, bind_ret, after_ret.
  unfold dataMap_log. by rewrite fmap_app.
Qed.

(** X3 (never a partial batch).  Whatever the batch and the client, a bulk
    request that the indexer performs is its only one, is performed on a
    client that is not nil, and carries the whole batch: every record
    serialized, in order. *)
Theorem bulkInsert_whole_batch (dataList : list (gmap string any))
    (es : option Client) (req : BulkRequest) :
  req ∈ requests (trace (bulkInsertToElasticsearch dataList es)) ->
  exists (c : Client) (datas : list string),
    es = Some c
    /\ Forall2 (fun dataMap data => json_Marshal dataMap = inr data)
               dataList datas
    /\ req = bulk_request (payload datas)
    /\ requests (trace (bulkInsertToElasticsearch dataList es)) = [req].
Proof.
  intros Hin.
  destruct (rangeDataList_cases dataList) as [[datas Hok]|Hbad].
  - destruct es as [c|].
    + exists c, datas. split; [done|]. split; [done|].
      rewrite (bulkInsert_one_request _ _ _ Hok) in Hin |- *. apply list_elem_of_singleton in Hin.
      by subst req.
    + exfalso. revert Hin. unfold bulkInsertToElasticsearch.
      rewrite (rangeDataList_ok _ _ Hok), <- after_ret, bind_after, bind_ret.
      rewrite trace_after, requests_app, requests_dataMap_log.
      cbn. apply not_elem_of_nil.
  - exfalso. revert Hin. unfold bulkInsertToElasticsearch.
    destruct (rangeDataList_fail dataList Hbad "")
      as (t & dataMap & e & _ & _ & -> & Ht).
    rewrite <- after_ret, bind_after, bind_ret, trace_after, requests_app, Ht.
    cbn. apply not_elem_of_nil.
Qed.


(** *** The per-file handler *)

Lemma outcome_bind_tt {A} (m : M A) (a : A) :
  outcome m = Return a -> outcome (_ <- m ;; ret tt) = Return tt.
Proof. destruct m as [t o]. unfold outcome. simpl. by intros ->. Qed.

Lemma len_eqb {A B} (l : list A) (k : list B) :
  (len l =? len k) = (length l =? length k)%nat.
Proof.
  unfold len. destruct (Nat.eqb_spec (length l) (length k)) as [->|Hne].
  - apply Z.eqb_refl.
  - apply Z.eqb_neq. lia.
Qed.

Lemma ReadAll_from_clean (headers : list string) (text : list Lexed) :
  forall (fuel : nat) (acc : list (list string)),
    0 < len headers ->
    (length text < fuel)%nat ->
    exists r' err,
      ReadAll_from fuel {| pending := text; FieldsPerRecord := len headers |} acc
      = (r', (if clean headers text then acc ++ text.*1 else [], err)).
Proof.
  induction text as [|[dst lexerr] text IH]; intros fuel acc Hpos Hfuel;
    (destruct fuel as [|fuel]; [simpl in Hfuel; lia|]).
  - eexists _, _. cbn. by rewrite app_nil_r.
  - simpl in Hfuel. cbn [ReadAll_from]. unfold readRecord. cbn [pending].
    apply Z.ltb_lt in Hpos as Hpos'. cbn [FieldsPerRecord]. rewrite Hpos'.
    cbn [clean forallb fst snd]. rewrite <- len_eqb.
    destruct lexerr as [t|]; cbn [fmap option_fmap option_map is_nil].
    + rewrite !andb_false_r. cbn. by eexists _, _.
    + rewrite !andb_true_r. destruct (len dst =? len headers); cbn.
      * destruct (IH fuel (acc ++ [dst]) Hpos) as (r' & err & Hr'); [lia|].
        exists r', err. rewrite Hr'. unfold clean.
        destruct (forallb _ text); [|done]. by rewrite <- app_assoc.
      * by eexists _, _.
Qed.

Lemma data_rows_clean (headers : list string) (rest : list Lexed) :
  headers <> [] ->
  data_rows headers rest = if clean headers rest then rest.*1 else [].
Proof.
  intros Hne.
  destruct (ReadAll_from_clean headers rest (S (length rest)) [])
    as (r' & err & Hr'); [destruct headers; [done|unfold len; simpl; lia]|lia|].
  unfold data_rows, ReadAll, data_reader. cbn [pending]. by rewrite Hr'.
Qed.

Lemma processGzipFile_unreadable (es : option Client) (filePath : string) :
  ~ (exists headers rest, header_read filePath headers rest) ->
  outcome (processGzipFile es filePath) = os_Exit 1
  /\ requests (trace (processGzipFile es filePath)) = [].
Proof.
  intros Hno. unfold processGzipFile. rewrite bind_emit.
  destruct (os_Open filePath) as [err|f] eqn:Hopen; [done|].
  unfold gzip_NewReader.
  destruct (gzip_header f) as [err|] eqn:Hgz; [done|].
  destruct (csv_text f) as [|[headers [text|]] rest] eqn:Htext; [done..|].
  destruct Hno. exists headers, rest, f. done.
Qed.

(** X4 (not a gzip file).  When the file opens but [gzip.NewReader]
    rejects it, the handler logs that error through [log.Fatal] and exits
    the process with status 1, before any header is read or logged. *)
Theorem processGzipFile_gzip_failure (es : option Client) (filePath : string)
    (f : File) (err : error) :
  os_Open filePath = inr f ->
  gzip_header f = Some err ->
  processGzipFile es filePath
  = ([os_Open_call filePath; log_Fatal_out [AErr err]], os_Exit 1).
Proof.
  intros Hopen Hgz. unfold processGzipFile, gzip_NewReader.
  by rewrite bind_emit, Hopen, Hgz.
Qed.

(** X5 (no header).  When the decompressed text has no record at all, or
    its first record has a lexing error, the handler first logs the header
    it was given (empty at end of input) and only then exits with status 1
    on the read error, which is [io.EOF] for an empty text. *)
Theorem processGzipFile_header_failure (es : option Client)
    (filePath : string) (f : File) :
  os_Open filePath = inr f ->
  gzip_header f = None ->
  (csv_text f = [] ->
   processGzipFile es filePath
   = ([os_Open_call filePath;
       log_Println [AStr "header: "; AStrs []];
       log_Fatal_out [AErr io_EOF]], os_Exit 1))
  /\ (forall headers text rest,
        csv_text f = (headers, Some text) :: rest ->
        processGzipFile es filePath
        = ([os_Open_call filePath;
            log_Println [AStr "header: "; AStrs headers];
            log_Fatal_out [AErr (errors_New text)]], os_Exit 1)).
Proof.
  intros Hopen Hgz. unfold processGzipFile, gzip_NewReader.
  rewrite bind_emit, Hopen, Hgz. split.
  - by intros ->.
  - by intros headers text rest ->.
Qed.

(** X6 (how the handler ends).  With a constructed client the handler
    never panics: it returns exactly when the file opens, decompresses and
    has a header that reads without error, whatever the indexer then
    reports; in every other case it exits the process with status 1
    without having performed a bulk request. *)
Theorem processGzipFile_outcome (c : Client) (filePath : string) :
  (outcome (processGzipFile (Some c) filePath) = Return tt
   <-> exists headers rest, header_read filePath headers rest)
  /\ (~ (exists headers rest, header_read filePath headers rest) ->
      outcome (processGzipFile (Some c) filePath) = os_Exit 1
      /\ requests (trace (processGzipFile (Some c) filePath)) = []).
Proof.
  split; [split|apply processGzipFile_unreadable].
  - intros Hret.
    destruct (os_Open filePath) as [err|f] eqn:Hopen.
    { revert Hret. unfold processGzipFile. by rewrite bind_emit, Hopen. }
    destruct (gzip_header f) as [err|] eqn:Hgz.
    { revert Hret. unfold processGzipFile, gzip_NewReader.
      by rewrite bind_emit, Hopen, Hgz. }
    destruct (csv_text f) as [|[headers [text|]] rest] eqn:Htext.
    + revert Hret. unfold processGzipFile, gzip_NewReader.
      by rewrite bind_emit, Hopen, Hgz, Htext.
    + revert Hret. unfold processGzipFile, gzip_NewReader.
      by rewrite bind_emit, Hopen, Hgz, Htext.
    + by exists headers, rest, f.
  - intros (headers & rest & f & Hopen & Hgz & Htext).
    rewrite (processGzipFile_decoded _ _ _ _ _ Hopen Hgz Htext), outcome_after.
    destruct (bulkInsert_returns
                (zipRecord headers <$> data_rows headers rest) c) as [r Hr].
    by apply (outcome_bind_tt _ r).
Qed.

Lemma marshal_rows (headers : list string) (rows : list (list string))
    (datas : list string) :
  Forall2 (fun row data => json_Marshal (zipRecord headers row) = inr data)
          rows datas ->
  Forall2 (fun dataMap data => json_Marshal dataMap = inr data)
          (zipRecord headers <$> rows) datas.
Proof. induction 1; by constructor. Qed.

Lemma bind_pair_ret {A} (t : list event) (a : A) :
  (_ <- (t, Return a) ;; ret tt) = (t, Return tt).
Proof. unfold bind, ret. by rewrite app_nil_r. Qed.

(** X7 (a failed submission is dropped).  For a well-formed file whose
    records serialize, when the bulk request fails in transport or comes
    back with the error indicator set, the handler returns normally and
    nothing follows the request in its trace: the error the indexer
    returns is neither logged nor acted on. *)
Theorem processGzipFile_drops_error (c : Client) (filePath : string)
    (f : File) (headers : list string) (rows : list (list string))
    (datas : list string) :
  os_Open filePath = inr f ->
  well_formed f headers rows ->
  Forall2 (fun row data => json_Marshal (zipRecord headers row) = inr data)
          rows datas ->
  (exists err, Perform c (bulk_request (payload datas)) = inl err)
  \/ (exists res, Perform c (bulk_request (payload datas)) = inr res
                  /\ IsError res = true) ->
  processGzipFile (Some c) filePath
  = (decoded_log filePath headers (len rows)
     ++ dataMap_log (zipRecord headers <$> rows)
     ++ [Bulk_Do (bulk_request (payload datas))],
     Return tt).
Proof.
  intros Hopen (Hgz & Htext & Hrows) Hm Hfail.
  rewrite (processGzipFile_decoded _ _ _ _ _ Hopen Hgz Htext).
  rewrite data_rows_well_formed by done.
  apply marshal_rows in Hm.
  rewrite (bulkInsert_submitted _ _ _ Hm). unfold bulk_request in Hfail.
  destruct Hfail as [[err ->]|(res & -> & ->)].
  - by rewrite after_ret, bind_pair_ret, <- after_ret, after_after, after_ret.
  - destruct (json_Decode (ResBody res));
      by rewrite after_ret, bind_pair_ret, <- after_ret, after_after, after_ret.
Qed.

(** X8 (one file, one request).  For a well-formed file whose records
    serialize, the handler run with a client performs exactly one bulk
    request, whose body holds the directive and the serialization of every
    data row, in the order of the file. *)
Theorem processGzipFile_one_request (c : Client) (filePath : string)
    (f : File) (headers : list string) (rows : list (list string))
    (datas : list string) :
  os_Open filePath = inr f ->
  well_formed f headers rows ->
  Forall2 (fun row data => json_Marshal (zipRecord headers row) = inr data)
          rows datas ->
  requests (trace (processGzipFile (Some c) filePath))
  = [ {| Body := payload datas; Refresh := "true" |} ].
Proof.
  intros Hopen (Hgz & Htext & Hrows) Hm.
  rewrite (processGzipFile_decoded _ _ _ _ _ Hopen Hgz Htext).
  rewrite data_rows_well_formed by done.
  rewrite trace_after, trace_bind_ret, requests_app.
  apply marshal_rows in Hm.
  by rewrite (bulkInsert_one_request _ _ _ Hm).
Qed.

(** X9 (all rows or none).  With a header of at least one column read,
    the batch handed to the indexer has one record for every record after
    the header when each of them has the header's number of fields and no
    lexing error, and is empty as soon as one of them does not: a surplus
    cell, a missing cell or a parse error anywhere drops the rows before
    it too. *)
Theorem processGzipFile_all_or_nothing (es : option Client)
    (filePath : string) (headers : list string) (rest : list Lexed) :
  header_read filePath headers rest ->
  headers <> [] ->
  let rows := if clean headers rest then rest.*1 else [] in
  processGzipFile es filePath
  = after (decoded_log filePath headers (len rows))
          (_ <- bulkInsertToElasticsearch (zipRecord headers <$> rows) es ;;
           ret tt).
Proof.
  intros (f & Hopen & Hgz & Htext) Hne rows. subst rows.
  rewrite (processGzipFile_decoded _ _ _ _ _ Hopen Hgz Htext).
  by rewrite data_rows_clean.
Qed.


(** *** The watch loop *)

Lemma onEvent_quiet (es : option Client) (event : Event) :
  triggers (Events_recv event) = false -> onEvent es event = ret tt.
Proof. unfold triggers, onEvent. by intros ->. Qed.

(** X10 (other operations).  An event whose operation lacks the create
    bit, a write or a rename say, never runs the handler, not even on a
    name that ends with [".gz"]: the loop goes on as if it had not come. *)
Theorem watchLoop_other_ops (es : option Client) (event : Event)
    (msgs : list msg) :
  Z.land (Op event) Create <> Create ->
  watchLoop es (Events_recv event :: msgs) = watchLoop es msgs.
Proof.
  intros Hop. cbn [watchLoop]. rewrite onEvent_quiet, bind_ret; [done|].
  unfold triggers. apply Z.eqb_neq in Hop. by rewrite Hop.
Qed.


(** X12 (nothing after the end).  Once a run of the loop has ended in an
    exit or a panic, the messages that follow make no difference: none of
    them is served. *)
Theorem watchLoop_stops (es : option Client) (msgs1 msgs2 : list msg) :
  outcome (watchLoop es msgs1) <> Return tt ->
  watchLoop es (msgs1 ++ msgs2) = watchLoop es msgs1.
Proof.
  induction msgs1 as [|m msgs1 IH]; intros Hout; [done|].
  destruct m as [event| |err|]; cbn [app watchLoop] in *; [|done| |done].
  - destruct (onEvent es event) as [t [[]|code|p]]; [|done..].
    rewrite <- after_ret, !bind_after, !bind_ret in *.
    rewrite outcome_after in Hout. by rewrite IH.
  - rewrite !bind_emit in *. rewrite outcome_after in Hout. by rewrite IH.
Qed.

(** X13 (closed channels).  When either channel is reported closed the
    goroutine returns: whatever the channels would still deliver is not
    served. *)
Theorem watchLoop_closed (es : option Client) (msgs1 msgs2 : list msg) :
  watchLoop es (msgs1 ++ Events_closed :: msgs2) = watchLoop es msgs1
  /\ watchLoop es (msgs1 ++ Errors_closed :: msgs2) = watchLoop es msgs1.
Proof.
  induction msgs1 as [|m msgs1 [IH1 IH2]]; [done|].
  destruct m as [event| |err|]; cbn [app watchLoop]; [|done| |done];
    by rewrite IH1, IH2.
Qed.

Lemma watchLoop_returning (es : option Client) (event : Event)
    (msgs : list msg) :
  is_creation event -> ends_with (Name event) ".gz" ->
  outcome (processGzipFile es (Name event)) = Return tt ->
  watchLoop es (Events_recv event :: msgs)
  = after (detected_log (Name event) :: trace (processGzipFile es (Name event)))
          (watchLoop es msgs).
Proof.
  intros Hc Hs Hret. cbn [watchLoop]. rewrite (onEvent_gz _ _ Hc Hs).
  destruct (processGzipFile es (Name event)) as [t o]. unfold outcome in Hret.
  simpl in Hret. subst o. change (trace (t, Return tt)) with t.
  by rewrite <- after_ret, after_after, bind_after, bind_ret.
Qed.

(** X14 (no deduplication).  The loop keeps nothing between events: when
    the handler returns on a [.gz] file, [n] creation events for that name
    run it [n] times and perform its bulk requests [n] times over. *)
Theorem watchLoop_no_dedup (es : option Client) (event : Event) (n : nat) :
  is_creation event -> ends_with (Name event) ".gz" ->
  outcome (processGzipFile es (Name event)) = Return tt ->
  outcome (watchLoop es (replicate n (Events_recv event))) = Return tt
  /\ requests (trace (watchLoop es (replicate n (Events_recv event))))
     = mjoin (replicate n (requests (trace (processGzipFile es (Name event))))).
Proof.
  intros Hc Hs Hret. induction n as [|n [IHo IHr]]; [done|].
  cbn [replicate]. rewrite (watchLoop_returning _ _ _ Hc Hs Hret).
  rewrite outcome_after, trace_after. split; [done|].
  change (detected_log (Name event) :: ?t) with ([detected_log (Name event)] ++ t).
  rewrite !requests_app, IHr. done.
Qed.

(** *** Start-up *)

(** X15 (fatal start-up).  When the environment file does not load, the
    watcher cannot be created or the directory cannot be registered,
    [main] exits with status 1: no message is served, no file is opened
    and no bulk request is performed. *)
Theorem main_startup_fatal (p : Platform) (msgs : list msg) :
  is_Some (godotenv_Load p ".env")
  \/ is_Some (fsnotify_NewWatcher p)
  \/ is_Some (watcher_Add p (os_Getenv p "FILE_PATH")) ->
  outcome (main p msgs) = os_Exit 1
  /\ main p msgs = main p []
  /\ requests (trace (main p msgs)) = []
  /\ forall path, os_Open_call path ∉ trace (main p msgs).
Proof.
  intros Hfail. unfold main.
  destruct (godotenv_Load p ".env") as [e0|].
  { repeat split; [done..|]. intros path Hin.
    by apply list_elem_of_singleton in Hin. }
  assert (fsnotify_NewWatcher p = None ->
          is_Some (watcher_Add p (os_Getenv p "FILE_PATH"))) as Hadd.
  { intros Hw. destruct Hfail as [[? ?]|[[? Hw']|Hadd]]; [done| |done].
    by rewrite Hw in Hw'. }
  destruct (elasticsearch_NewClient p _) as [err|c].
  - rewrite !bind_emit, !bind_after, !bind_ret.
    destruct (fsnotify_NewWatcher p) as [e1|].
    + repeat split; [done..|]. intros path Hin. cbn in Hin.
      apply elem_of_cons in Hin as [?|Hin]; [done|].
      by apply list_elem_of_singleton in Hin.
    + destruct (Hadd eq_refl) as [e2 ->].
      repeat split; [done..|]. intros path Hin. cbn in Hin.
      apply elem_of_cons in Hin as [?|Hin]; [done|].
      by apply list_elem_of_singleton in Hin.
  - rewrite !bind_ret.
    destruct (fsnotify_NewWatcher p) as [e1|].
    + repeat split; [done..|]. intros path Hin.
      by apply list_elem_of_singleton in Hin.
    + destruct (Hadd eq_refl) as [e2 ->].
      repeat split; [done..|]. intros path Hin.
      by apply list_elem_of_singleton in Hin.
Qed.


(** *** The record mapper *)

Lemma fill_dom (hs : list string) :
  forall (cs : list string) (m : gmap string any),
    (length hs <= length cs)%nat ->
    dom (fill m hs cs) = list_to_set hs ∪ dom m.
Proof.
  induction hs as [|h hs IH]; intros cs m Hlen.
  - unfold fill. simpl. by rewrite (left_id_L ∅ (∪)).
  - destruct cs as [|c cs]; simpl in Hlen; [lia|].
    rewrite fill_cons, IH by lia. rewrite dom_insert_L. simpl.
    by rewrite (assoc_L (∪)), (comm_L (∪) (list_to_set hs) {[h]}).
Qed.

Lemma size_list_to_set_le (l : list string) :
  (size (list_to_set l : gset string) <= length l)%nat.
Proof.
  induction l as [|x l IH]; [done|]. simpl.
  rewrite size_union_alt, size_singleton.
  assert (size (list_to_set l ∖ {[x]} : gset string)
          <= size (list_to_set l : gset string))%nat
    by (apply subseteq_size, subseteq_difference_l; reflexivity).
  lia.
Qed.

Lemma size_list_to_set_NoDup (l : list string) :
  size (list_to_set l : gset string) = length l <-> NoDup l.
Proof.
  split; [|apply size_list_to_set].
  induction l as [|x l IH]; intros Hsize; [constructor|].
  simpl in Hsize. pose proof (size_list_to_set_le l) as Hle.
  destruct (decide (x ∈ l)) as [Hin|Hin].
  - exfalso.
    assert ({[x]} ∪ list_to_set l = (list_to_set l : gset string)) as Heq.
    { apply subseteq_union_1_L, singleton_subseteq_l.
      by apply elem_of_list_to_set. }
    rewrite Heq in Hsize. lia.
  - constructor; [done|]. apply IH.
    rewrite size_union, size_singleton in Hsize; [lia|].
    apply disjoint_singleton_l. by rewrite elem_of_list_to_set.
Qed.

Lemma fill_lookup_Some (hs : list string) :
  forall (cs : list string) (m : gmap string any) (k : string) (v : any),
    fill m hs cs !! k = Some v ->
    m !! k = Some v
    \/ exists (j : nat) (cell : string),
         hs !! j = Some k /\ cs !! j = Some cell /\ v = AString cell.
Proof.
  induction hs as [|h hs IH]; intros cs m k v Hk; [by left|].
  destruct cs as [|c cs]; [by left|]. rewrite fill_cons in Hk.
  apply IH in Hk as [Hk|(j & cell & Hj & Hc & ->)].
  - apply lookup_insert_Some in Hk as [[-> <-]|[_ Hk]]; [|by left].
    right. by exists 0%nat, c.
  - right. by exists (S j), cell.
Qed.

Lemma rangeRows_wide (headers : list string) (rows : list (list string)) :
  forall dataList dataList' : list (gmap string any),
    rangeRows headers rows dataList = ret dataList' ->
    Forall (fun row => (length headers <= length row)%nat) rows.
Proof.
  induction rows as [|row rows IH]; intros acc dl Hrun; [constructor|].
  cbn [rangeRows] in Hrun.
  destruct (decide (length headers <= length row)%nat) as [Hw|Hs].
  - constructor; [done|].
    rewrite rangeHeaders_fill, bind_ret in Hrun by (simpl; lia).
    by apply IH in Hrun.
  - by rewrite rangeHeaders_short in Hrun by lia.
Qed.

(** X16 (keys of a record).  On a row with at least as many cells as the
    header, the mapper's inner loop returns a record whose keys are
    exactly the header names; it has as many entries as the header has
    columns only when the names are distinct, and fewer otherwise: a
    repeated name costs a column. *)
Theorem rangeHeaders_keys (headers row : list string) :
  (length headers <= length row)%nat ->
  exists dataMap : gmap string any,
    rangeHeaders 0 headers row ∅ = ret dataMap
    /\ dom dataMap = list_to_set headers
    /\ (size dataMap <= length headers)%nat
    /\ (size dataMap = length headers <-> NoDup headers).
Proof.
  intros Hlen. exists (fill ∅ headers row).
  assert (dom (fill ∅ headers row) = list_to_set headers) as Hdom.
  { rewrite fill_dom by done. by rewrite dom_empty_L, (right_id_L ∅ (∪)). }
  split; [by rewrite rangeHeaders_fill by (simpl; lia)|]. split; [done|].
  rewrite <- size_dom, Hdom.
  split; [apply size_list_to_set_le|apply size_list_to_set_NoDup].
Qed.

(** X17 (when the mapper faults).  The loop over the rows returns exactly
    when every row has at least as many cells as the header.  Otherwise it
    panics at the first row that has fewer, on the index just past that
    row's last cell, and the records built from the rows before it are
    lost with it. *)
Theorem rangeRows_fault (headers : list string) (rows : list (list string)) :
  (Forall (fun row => (length headers <= length row)%nat) rows
   <-> exists dataList, rangeRows headers rows [] = ret dataList)
  /\ forall pre row post,
       rows = pre ++ row :: post ->
       Forall (fun row => (length headers <= length row)%nat) pre ->
       (length row < length headers)%nat ->
       rangeRows headers rows []
       = throw (IndexOutOfRange (length row) (length row)).
Proof.
  split; [split|].
  - intros Hw. eexists. by apply rangeRows_zip.
  - intros [dataList Hrun]. by apply rangeRows_wide in Hrun.
  - intros pre row post -> Hpre Hrow.
    generalize (@nil (gmap string any)) as acc.
    induction Hpre as [|r pre Hr _ IH]; intros acc; cbn [app rangeRows].
    + by rewrite rangeHeaders_short by lia.
    + rewrite rangeHeaders_fill, bind_ret by (simpl; lia). apply IH.
Qed.

(** X18 (nothing but the row's cells).  Every entry of a record built by
    the mapper is a cell of the row of the same position in the file,
    stored as a string under the name of that cell's column: no value is
    converted, invented or taken from another row. *)
Theorem rangeRows_entries (headers : list string) (rows : list (list string))
    (dataList : list (gmap string any)) (i : nat)
    (dataMap : gmap string any) (k : string) (v : any) :
  rangeRows headers rows [] = ret dataList ->
  dataList !! i = Some dataMap ->
  dataMap !! k = Some v ->
  length dataList = length rows
  /\ exists (row : list string) (j : nat) (cell : string),
       rows !! i = Some row
       /\ headers !! j = Some k /\ row !! j = Some cell
       /\ v = AString cell.
Proof.
  intros Hrun Hi Hk.
  apply rangeRows_wide in Hrun as Hw.
  rewrite (rangeRows_zip _ _ [] Hw) in Hrun. injection Hrun as <-.
  split; [by rewrite length_fmap|].
  rewrite list_lookup_fmap in Hi.
  destruct (rows !! i) as [row|] eqn:Hrow; [|done]. injection Hi as <-.
  apply fill_lookup_Some in Hk as [Hk|(j & cell & Hj & Hc & ->)]; [done|].
  by exists row, j, cell.
Qed.

End Program.

(** ** The properties on the sample inputs *)

Lemma C1_header_framing_witness :
  sample_Open "probe_001.gz" = inr probe_001
  /\ well_formed probe_001 probe_headers probe_rows
  /\ exists (dataList : list (gmap string any)) (dataMap : gmap string any),
       processGzipFile sample_Marshal sample_Decode sample_Open
         (Some accepting) "probe_001.gz"
       = after (decoded_log "probe_001.gz" probe_headers 2)
               (_ <- bulkInsertToElasticsearch sample_Marshal sample_Decode
                       dataList (Some accepting) ;;
                ret tt)
       /\ dataList !! 1%nat = Some dataMap
       /\ dataMap !! "source_port" = Some (AString "5001")
       /\ dataMap !! "alarmid" = None.
Proof.
  assert (well_formed probe_001 probe_headers probe_rows) as Hwf.
  { split; [reflexivity|]. split; [reflexivity|]. by repeat constructor. }
  split; [reflexivity|]. split; [exact Hwf|].
  destruct (C1_header_framing sample_Marshal sample_Decode sample_Open
              (Some accepting) "probe_001.gz" probe_001 probe_headers
              probe_rows 1 ["2"; "5001"; "2024-01-01T00:01:00Z"]
              eq_refl Hwf eq_refl)
    as (dataList & dataMap & _ & Hrun & Hi & Hcell & Hother & _).
  exists dataList, dataMap. split; [exact Hrun|]. split; [exact Hi|]. split.
  - apply (Hcell 1%nat "source_port" "5001"); [reflexivity..|].
    intros [|[|[|j']]] Hj; [lia|lia|discriminate|discriminate].
  - apply Hother. unfold probe_headers.
    rewrite !elem_of_cons, elem_of_nil.
    intros [H|[H|[H|[]]]]; discriminate H.
Defined.

Lemma C2_bulk_payload_witness :
  probe_batch <> []
  /\ Forall2 (fun dataMap data => sample_Marshal dataMap = inr data)
             probe_batch probe_datas
  /\ requests (trace (bulkInsertToElasticsearch sample_Marshal sample_Decode
                        probe_batch (Some accepting)))
     = [ {| Body := payload probe_datas; Refresh := "true" |} ].
Proof.
  assert (Forall2 (fun dataMap data => sample_Marshal dataMap = inr data)
                  probe_batch probe_datas) as Hm.
  { repeat constructor; vm_compute; reflexivity. }
  split; [discriminate|]. split; [exact Hm|].
  apply (C2_bulk_payload sample_Marshal sample_Decode probe_batch probe_datas
           accepting); [discriminate|exact Hm].
Defined.

Lemma C3_serialization_atomic_witness :
  (exists dataMap, dataMap ∈ chan_batch
                   /\ exists e, sample_Marshal dataMap = inl e)
  /\ exists (dataMap : gmap string any) (e : error),
       dataMap ∈ chan_batch /\ sample_Marshal dataMap = inl e
       /\ outcome (bulkInsertToElasticsearch sample_Marshal sample_Decode
                     chan_batch (Some accepting))
          = Return (Some (fmt_Errorf "error marshalling dataMap: %w" (AErr e)))
       /\ requests (trace (bulkInsertToElasticsearch sample_Marshal
                             sample_Decode chan_batch (Some accepting))) = [].
Proof.
  assert (exists dataMap, dataMap ∈ chan_batch
                          /\ exists e, sample_Marshal dataMap = inl e) as Hbad.
  { exists {[ "session_id" := AOther "chan int" ]}. split.
    - unfold chan_batch. apply elem_of_cons. right. apply elem_of_cons. by left.
    - eexists. vm_compute. reflexivity. }
  split; [exact Hbad|].
  exact (C3_serialization_atomic sample_Marshal sample_Decode chan_batch
           (Some accepting) Hbad).
Defined.

Lemma C4_error_surfacing_witness :
  Forall2 (fun dataMap data => sample_Marshal dataMap = inr data)
          probe_batch probe_datas
  /\ Perform rejecting (bulk_request (payload probe_datas))
     = inr {| StatusCode := 400; ResBody := "{}" |}
  /\ outcome (bulkInsertToElasticsearch sample_Marshal sample_Decode
                probe_batch (Some rejecting))
     = Return (Some (fmt_Errorf "error indexing batch: %s" (AMap ∅)))
  /\ forall n, success_log n
               ∉ trace (bulkInsertToElasticsearch sample_Marshal sample_Decode
                          probe_batch (Some rejecting)).
Proof.
  assert (Forall2 (fun dataMap data => sample_Marshal dataMap = inr data)
                  probe_batch probe_datas) as Hm.
  { repeat constructor; vm_compute; reflexivity. }
  split; [exact Hm|]. split; [reflexivity|].
  destruct (C4_error_surfacing sample_Marshal sample_Decode probe_batch
              probe_datas rejecting {| StatusCode := 400; ResBody := "{}" |}
              Hm eq_refl) as [Herr _].
  destruct (Herr eq_refl) as (_ & Hbody & Hquiet).
  split; [apply Hbody; reflexivity|exact Hquiet].
Defined.

Lemma C5_row_count_witness :
  sample_Open "probe_001.gz" = inr probe_001
  /\ well_formed probe_001 probe_headers probe_rows
  /\ length probe_batch = 2%nat
  /\ last (trace (processGzipFile sample_Marshal sample_Decode sample_Open
                    (Some accepting) "probe_001.gz"))
     = Some (success_log 2).
Proof.
  assert (well_formed probe_001 probe_headers probe_rows) as Hwf.
  { split; [reflexivity|]. split; [reflexivity|]. by repeat constructor. }
  split; [reflexivity|]. split; [exact Hwf|].
  destruct (C5_row_count sample_Marshal sample_Decode sample_Open
              (Some accepting) "probe_001.gz" probe_001 probe_headers
              probe_rows eq_refl Hwf) as (_ & Hlen & _ & Hok).
  split; [exact Hlen|]. apply Hok. vm_compute. reflexivity.
Defined.

Lemma C6_suffix_filter_witness :
  is_creation {| Name := "notes.txt"; Op := Z.lor Create Write |}
  /\ (os_Open_call "notes.txt"
      ∉ trace (watchLoop sample_Marshal sample_Decode sample_Open
                 (Some accepting)
                 [Events_recv
                    {| Name := "notes.txt"; Op := Z.lor Create Write |}]))
  /\ is_creation {| Name := "probe_001.gz"; Op := Create |}
  /\ (os_Open_call "probe_001.gz"
      ∈ trace (watchLoop sample_Marshal sample_Decode sample_Open
                 (Some accepting)
                 [Events_recv {| Name := "probe_001.gz"; Op := Create |}])).
Proof.
  split; [reflexivity|]. split; [|split; [reflexivity|]].
  - intros Hin.
    destruct (C6_suffix_filter sample_Marshal sample_Decode sample_Open
                (Some accepting)
                {| Name := "notes.txt"; Op := Z.lor Create Write |} eq_refl)
      as [Hiff _].
    apply Hiff, HasSuffix_spec in Hin. discriminate Hin.
  - apply (C6_suffix_filter sample_Marshal sample_Decode sample_Open
             (Some accepting) {| Name := "probe_001.gz"; Op := Create |}
             eq_refl).
    by exists "probe_001".
Defined.

Lemma C4_counterexample :
  Forall2 (fun dataMap data => sample_Marshal dataMap = inr data)
          probe_batch probe_datas
  /\ Perform bad_gateway (bulk_request (payload probe_datas))
     = inr {| StatusCode := 502; ResBody := "<html>502 Bad Gateway</html>" |}
  /\ IsError {| StatusCode := 502; ResBody := "<html>502 Bad Gateway</html>" |}
     = true
  /\ ~ exists resBody : gmap string any,
         outcome (bulkInsertToElasticsearch sample_Marshal sample_Decode
                    probe_batch (Some bad_gateway))
         = Return (Some (fmt_Errorf "error indexing batch: %s" (AMap resBody))).
Proof.
  split; [repeat constructor; vm_compute; reflexivity|].
  split; [reflexivity|]. split; [reflexivity|].
  intros [resBody Hout]. vm_compute in Hout. discriminate Hout.
Qed.



Lemma C8_client_failure_not_fatal_witness :
  elasticsearch_NewClient no_client
    {| Addresses := ["://es.example"]; Username := ""; Password := "";
       InsecureSkipVerify := true |}
  = inl (errors_New "cannot create client: cannot parse url")
  /\ outcome (main sample_Marshal sample_Decode sample_Open no_client [])
     = Return tt.
Proof.
  split; [reflexivity|].
  apply (C8_client_failure_not_fatal sample_Marshal sample_Decode sample_Open
           no_client []
           (errors_New "cannot create client: cannot parse url"));
    reflexivity.
Defined.

Lemma C9_open_failure_fatal_witness :
  sample_Open "missing.gz"
  = inl (errors_New "open: no such file or directory")
  /\ is_creation {| Name := "missing.gz"; Op := Create |}
  /\ ends_with "missing.gz" ".gz"
  /\ outcome (watchLoop sample_Marshal sample_Decode sample_Open
                (Some accepting)
                [Events_recv {| Name := "missing.gz"; Op := Create |};
                 Events_recv {| Name := "probe_001.gz"; Op := Create |}])
     = os_Exit 1.
Proof.
  assert (ends_with "missing.gz" ".gz") as Hs by (by exists "missing").
  split; [reflexivity|]. split; [reflexivity|]. split; [exact Hs|].
  destruct (C9_open_failure_fatal sample_Marshal sample_Decode sample_Open
              (Some accepting) "missing.gz"
              (errors_New "open: no such file or directory") eq_refl)
    as [_ Hloop].
  by rewrite (Hloop {| Name := "missing.gz"; Op := Create |}
                [Events_recv {| Name := "probe_001.gz"; Op := Create |}]
                eq_refl eq_refl Hs).
Defined.

Lemma C10_empty_batch_witness :
  sample_Open "probe_short.gz" = inr probe_short
  /\ (exists row lexerr,
        (row, lexerr) ∈ [(["1"; "5000"; "2024-01-01T00:00:00Z"], None);
                         (["2"; "5001"], None : option string)]
        /\ (length row < length probe_headers)%nat)
  /\ requests (trace (processGzipFile sample_Marshal sample_Decode sample_Open
                        (Some accepting) "probe_short.gz"))
     = [ {| Body := ""; Refresh := "true" |} ].
Proof.
  assert (exists row lexerr,
            (row, lexerr) ∈ [(["1"; "5000"; "2024-01-01T00:00:00Z"], None);
                             (["2"; "5001"], None : option string)]
            /\ (length row < length probe_headers)%nat) as Hshort.
  { exists ["2"; "5001"], None. split; [|simpl; lia].
    apply elem_of_cons. right. apply elem_of_cons. by left. }
  split; [reflexivity|]. split; [exact Hshort|].
  apply (C10_empty_batch sample_Marshal sample_Decode sample_Open accepting
           "probe_short.gz" probe_short probe_headers _ eq_refl eq_refl
           eq_refl (or_intror (or_intror Hshort))).
Defined.

(** ** The further properties on the sample inputs *)

Lemma bulkInsert_transport_failure_witness :
  Forall2 (fun dataMap data => sample_Marshal dataMap = inr data)
          probe_batch probe_datas
  /\ Perform unreachable (bulk_request (payload probe_datas))
     = inl (errors_New "dial tcp: connection refused")
  /\ outcome (bulkInsertToElasticsearch sample_Marshal sample_Decode
                probe_batch (Some unreachable))
     = Return (Some (fmt_Errorf "failure indexing batch: %w"
                       (AErr (errors_New "dial tcp: connection refused")))).
Proof.
  assert (Forall2 (fun dataMap data => sample_Marshal dataMap = inr data)
                  probe_batch probe_datas) as Hm.
  { repeat constructor; vm_compute; reflexivity. }
  split; [exact Hm|]. split; [reflexivity|].
  by rewrite (bulkInsert_transport_failure sample_Marshal sample_Decode
                probe_batch probe_datas unreachable
                (errors_New "dial tcp: connection refused") Hm eq_refl).
Defined.

Lemma bulkInsert_first_failure_witness :
  Forall2 (fun dataMap data => sample_Marshal dataMap = inr data)
          (take 1 chan_batch) chan_datas
  /\ sample_Marshal {[ "session_id" := AOther "chan int" ]}
     = inl (errors_New "json: unsupported type")
  /\ bulkInsertToElasticsearch sample_Marshal sample_Decode chan_batch
       (Some accepting)
     = (dataMap_log chan_batch,
        Return (Some (fmt_Errorf "error marshalling dataMap: %w"
                        (AErr (errors_New "json: unsupported type"))))).
Proof.
  assert (Forall2 (fun dataMap data => sample_Marshal dataMap = inr data)
                  (take 1 chan_batch) chan_datas) as Hm.
  { repeat constructor; vm_compute; reflexivity. }
  assert (sample_Marshal {[ "session_id" := AOther "chan int" ]}
          = inl (errors_New "json: unsupported type")) as Hbad
    by (vm_compute; reflexivity).
  split; [exact Hm|]. split; [exact Hbad|].
  exact (bulkInsert_first_failure sample_Marshal sample_Decode
           (take 1 chan_batch) [] {[ "session_id" := AOther "chan int" ]}
           chan_datas (errors_New "json: unsupported type") (Some accepting)
           Hm Hbad).
Defined.

Lemma bulkInsert_whole_batch_witness :
  bulk_request (payload probe_datas)
  ∈ requests (trace (bulkInsertToElasticsearch sample_Marshal sample_Decode
                       probe_batch (Some accepting)))
  /\ exists (c : Client) (datas : list string),
       Some accepting = Some c
       /\ Forall2 (fun dataMap data => sample_Marshal dataMap = inr data)
                  probe_batch datas
       /\ bulk_request (payload probe_datas) = bulk_request (payload datas)
       /\ requests (trace (bulkInsertToElasticsearch sample_Marshal
                             sample_Decode probe_batch (Some accepting)))
          = [bulk_request (payload probe_datas)].
Proof.
  assert (bulk_request (payload probe_datas)
          ∈ requests (trace (bulkInsertToElasticsearch sample_Marshal
                               sample_Decode probe_batch (Some accepting))))
    as Hin.
  { vm_compute. constructor. }
  split; [exact Hin|].
  exact (bulkInsert_whole_batch sample_Marshal sample_Decode probe_batch
           (Some accepting) (bulk_request (payload probe_datas)) Hin).
Defined.

Lemma processGzipFile_gzip_failure_witness :
  sample_files "not_gzip.gz" = inr not_gzip
  /\ gzip_header not_gzip = Some (errors_New "gzip: invalid header")
  /\ processGzipFile sample_Marshal sample_Decode sample_files
       (Some accepting) "not_gzip.gz"
     = ([os_Open_call "not_gzip.gz";
         log_Fatal_out [AErr (errors_New "gzip: invalid header")]],
        os_Exit 1).
Proof.
  split; [reflexivity|]. split; [reflexivity|].
  exact (processGzipFile_gzip_failure sample_Marshal sample_Decode sample_files
           (Some accepting) "not_gzip.gz" not_gzip
           (errors_New "gzip: invalid header") eq_refl eq_refl).
Defined.

Lemma processGzipFile_header_failure_witness :
  sample_files "empty.gz" = inr empty_text
  /\ gzip_header empty_text = None
  /\ processGzipFile sample_Marshal sample_Decode sample_files
       (Some accepting) "empty.gz"
     = ([os_Open_call "empty.gz";
         log_Println [AStr "header: "; AStrs []];
         log_Fatal_out [AErr io_EOF]], os_Exit 1).
Proof.
  split; [reflexivity|]. split; [reflexivity|].
  destruct (processGzipFile_header_failure sample_Marshal sample_Decode
              sample_files (Some accepting) "empty.gz" empty_text
              eq_refl eq_refl) as [Hempty _].
  exact (Hempty eq_refl).
Defined.

Lemma processGzipFile_drops_error_witness :
  sample_files "probe_001.gz" = inr probe_001
  /\ well_formed probe_001 probe_headers probe_rows
  /\ Forall2 (fun row data =>
                sample_Marshal (zipRecord probe_headers row) = inr data)
             probe_rows probe_datas
  /\ IsError {| StatusCode := 400; ResBody := "{}" |} = true
  /\ processGzipFile sample_Marshal sample_Decode sample_files
       (Some rejecting) "probe_001.gz"
     = (decoded_log "probe_001.gz" probe_headers 2
        ++ dataMap_log probe_batch
        ++ [Bulk_Do (bulk_request (payload probe_datas))],
        Return tt).
Proof.
  assert (well_formed probe_001 probe_headers probe_rows) as Hwf.
  { split; [reflexivity|]. split; [reflexivity|]. by repeat constructor. }
  assert (Forall2 (fun row data =>
                     sample_Marshal (zipRecord probe_headers row) = inr data)
                  probe_rows probe_datas) as Hm.
  { repeat constructor; vm_compute; reflexivity. }
  split; [reflexivity|]. split; [exact Hwf|]. split; [exact Hm|].
  split; [reflexivity|].
  apply (processGzipFile_drops_error sample_Marshal sample_Decode sample_files
           rejecting "probe_001.gz" probe_001 probe_headers probe_rows
           probe_datas eq_refl Hwf Hm).
  right. by exists {| StatusCode := 400; ResBody := "{}" |}.
Defined.

Lemma processGzipFile_one_request_witness :
  sample_files "probe_001.gz" = inr probe_001
  /\ well_formed probe_001 probe_headers probe_rows
  /\ Forall2 (fun row data =>
                sample_Marshal (zipRecord probe_headers row) = inr data)
             probe_rows probe_datas
  /\ requests (trace (processGzipFile sample_Marshal sample_Decode
                        sample_files (Some accepting) "probe_001.gz"))
     = [ {| Body := payload probe_datas; Refresh := "true" |} ].
Proof.
  assert (well_formed probe_001 probe_headers probe_rows) as Hwf.
  { split; [reflexivity|]. split; [reflexivity|]. by repeat constructor. }
  assert (Forall2 (fun row data =>
                     sample_Marshal (zipRecord probe_headers row) = inr data)
                  probe_rows probe_datas) as Hm.
  { repeat constructor; vm_compute; reflexivity. }
  split; [reflexivity|]. split; [exact Hwf|]. split; [exact Hm|].
  exact (processGzipFile_one_request sample_Marshal sample_Decode sample_files
           accepting "probe_001.gz" probe_001 probe_headers probe_rows
           probe_datas eq_refl Hwf Hm).
Defined.

Lemma processGzipFile_all_or_nothing_witness :
  header_read sample_files "probe_long.gz" probe_headers
    [(["1"; "5000"; "2024-01-01T00:00:00Z"], None);
     (["2"; "5001"; "2024-01-01T00:01:00Z"; "extra"], None)]
  /\ probe_headers <> []
  /\ processGzipFile sample_Marshal sample_Decode sample_files
       (Some accepting) "probe_long.gz"
     = after (decoded_log "probe_long.gz" probe_headers 0)
             (_ <- bulkInsertToElasticsearch sample_Marshal sample_Decode []
                     (Some accepting) ;;
              ret tt).
Proof.
  assert (header_read sample_files "probe_long.gz" probe_headers
            [(["1"; "5000"; "2024-01-01T00:00:00Z"], None);
             (["2"; "5001"; "2024-01-01T00:01:00Z"; "extra"], None)]) as Hread.
  { exists probe_long. by repeat split. }
  split; [exact Hread|]. split; [discriminate|].
  exact (processGzipFile_all_or_nothing sample_Marshal sample_Decode
           sample_files (Some accepting) "probe_long.gz" probe_headers _
           Hread ltac:(discriminate)).
Defined.

Lemma watchLoop_other_ops_witness :
  Z.land Write Create <> Create
  /\ watchLoop sample_Marshal sample_Decode sample_files (Some accepting)
       [Events_recv {| Name := "probe_001.gz"; Op := Write |}]
     = ret tt.
Proof.
  split; [discriminate|].
  apply (watchLoop_other_ops sample_Marshal sample_Decode sample_files
           (Some accepting) {| Name := "probe_001.gz"; Op := Write |} []).
  discriminate.
Defined.


Lemma watchLoop_stops_witness :
  outcome (watchLoop sample_Marshal sample_Decode sample_files
             (Some accepting)
             [Events_recv {| Name := "empty.gz"; Op := Create |}])
  <> Return tt
  /\ watchLoop sample_Marshal sample_Decode sample_files (Some accepting)
       ([Events_recv {| Name := "empty.gz"; Op := Create |}]
        ++ [Events_recv {| Name := "probe_001.gz"; Op := Create |}])
     = watchLoop sample_Marshal sample_Decode sample_files (Some accepting)
         [Events_recv {| Name := "empty.gz"; Op := Create |}].
Proof.
  assert (outcome (watchLoop sample_Marshal sample_Decode sample_files
                     (Some accepting)
                     [Events_recv {| Name := "empty.gz"; Op := Create |}])
          <> Return tt) as Hout by discriminate.
  split; [exact Hout|].
  exact (watchLoop_stops sample_Marshal sample_Decode sample_files
           (Some accepting) _ _ Hout).
Defined.

Lemma watchLoop_no_dedup_witness :
  is_creation {| Name := "probe_001.gz"; Op := Create |}
  /\ ends_with "probe_001.gz" ".gz"
  /\ outcome (processGzipFile sample_Marshal sample_Decode sample_files
                (Some accepting) "probe_001.gz") = Return tt
  /\ requests (trace (watchLoop sample_Marshal sample_Decode sample_files
                        (Some accepting)
                        (replicate 2
                           (Events_recv
                              {| Name := "probe_001.gz"; Op := Create |}))))
     = [bulk_request (payload probe_datas);
        bulk_request (payload probe_datas)].
Proof.
  assert (ends_with "probe_001.gz" ".gz") as Hs by (by exists "probe_001").
  assert (outcome (processGzipFile sample_Marshal sample_Decode sample_files
                     (Some accepting) "probe_001.gz") = Return tt) as Hret
    by (vm_compute; reflexivity).
  split; [reflexivity|]. split; [exact Hs|]. split; [exact Hret|].
  destruct (watchLoop_no_dedup sample_Marshal sample_Decode sample_files
              (Some accepting) {| Name := "probe_001.gz"; Op := Create |} 2
              eq_refl Hs Hret) as [_ Hreq].
  rewrite Hreq. vm_compute. reflexivity.
Defined.

Lemma main_startup_fatal_witness :
  is_Some (watcher_Add no_directory (os_Getenv no_directory "FILE_PATH"))
  /\ outcome (main sample_Marshal sample_Decode sample_files no_directory
                [Events_recv {| Name := "probe_001.gz"; Op := Create |}])
     = os_Exit 1.
Proof.
  assert (is_Some (watcher_Add no_directory
                     (os_Getenv no_directory "FILE_PATH"))) as Hadd
    by (by eexists).
  split; [exact Hadd|].
  apply (main_startup_fatal sample_Marshal sample_Decode sample_files
           no_directory _ (or_intror (or_intror Hadd))).
Defined.

Lemma rangeHeaders_keys_witness :
  (length ["a"; "b"; "a"] <= length ["1"; "2"; "3"])%nat
  /\ exists dataMap : gmap string any,
       rangeHeaders 0 ["a"; "b"; "a"] ["1"; "2"; "3"] ∅ = ret dataMap
       /\ dom dataMap = list_to_set ["a"; "b"; "a"]
       /\ (size dataMap <= 3)%nat.
Proof.
  split; [simpl; lia|].
  destruct (rangeHeaders_keys ["a"; "b"; "a"] ["1"; "2"; "3"])
    as (dataMap & Hrun & Hdom & Hle & _); [simpl; lia|].
  exists dataMap. by repeat split.
Defined.

Lemma rangeRows_entries_witness :
  rangeRows probe_headers probe_rows [] = ret probe_batch
  /\ probe_batch !! 1%nat
     = Some (zipRecord probe_headers ["2"; "5001"; "2024-01-01T00:01:00Z"])
  /\ zipRecord probe_headers ["2"; "5001"; "2024-01-01T00:01:00Z"]
       !! "source_port" = Some (AString "5001")
  /\ length probe_batch = length probe_rows.
Proof.
  assert (rangeRows probe_headers probe_rows [] = ret probe_batch) as Hrun
    by reflexivity.
  assert (zipRecord probe_headers ["2"; "5001"; "2024-01-01T00:01:00Z"]
            !! "source_port" = Some (AString "5001")) as Hk
    by (vm_compute; reflexivity).
  split; [exact Hrun|]. split; [reflexivity|]. split; [exact Hk|].
  destruct (rangeRows_entries probe_headers probe_rows probe_batch 1
              (zipRecord probe_headers ["2"; "5001"; "2024-01-01T00:01:00Z"])
              "source_port" (AString "5001") Hrun eq_refl Hk) as [Hlen _].
  exact Hlen.
Defined.
